(** * AI-NewsLetter-Generator: article ingestion, retrieval and newsletter shape

    A shallow embedding of
      - [src/actions/rss-article.ts]  ([getAuthorString], [createRssArticle],
        [bulkCreateRssArticles], [getArticlesByFeedsAndDateRange]) and
      - the newsletter types module ([NewsletterSchema]),
    together with the properties the specification states about them.

    Conventions.
      - A JavaScript value of type [any]/[unknown] is a [JsValue].
      - A [Date] is its millisecond time stamp, a [Z].
      - An [async] function that talks to the database is a computation in
        the monad [Db]: it threads the [World] (the article collection, the
        console, the faults the database is going to raise) and either
        returns a value or throws. *)

From Stdlib Require Import List String Ascii ZArith Bool Lia Arith.
From Stdlib Require Import Permutation Sorted DecimalString.
Import ListNotations.
Local Open Scope string_scope.
Local Open Scope list_scope.
Local Open Scope Z_scope.

Set Implicit Arguments.
Set Warnings "-register-all".


(* ===================================================================== *)
(** * JavaScript values                                                   *)
(* ===================================================================== *)

Module Js.

(** Plain data as an RSS parser or a JSON decoder delivers it.  [JsNumber]
    carries the integral numbers, [JsNaN] the one number that is not equal to
    itself; an object is the list of its own properties. *)
Inductive JsValue : Type :=
| JsUndefined
| JsNull
| JsBool (b : bool)
| JsNumber (n : Z)
| JsNaN
| JsString (s : string)
| JsArray (xs : list JsValue)
| JsObject (props : list (string * JsValue)).

(** The result of evaluating a piece of JavaScript: a value, or an
    exception that escapes. *)
Inductive Completion (A E : Type) : Type :=
| Return (a : A)
| Throw (e : E).
Arguments Return {A E} a.
Arguments Throw {A E} e.

Inductive TypeError : Type :=
| CannotReadProperty (key : string).

(** [!v] is true exactly on the falsy values. *)
Definition truthy (v : JsValue) : bool :=
  match v with
  | JsUndefined | JsNull | JsNaN => false
  | JsBool b => b
  | JsNumber n => negb (n =? 0)
  | JsString s => negb (String.eqb s "")
  | JsArray _ | JsObject _ => true
  end.

Definition typeof (v : JsValue) : string :=
  match v with
  | JsUndefined => "undefined"
  | JsNull => "object"
  | JsBool _ => "boolean"
  | JsNumber _ | JsNaN => "number"
  | JsString _ => "string"
  | JsArray _ | JsObject _ => "object"
  end.

Definition isArray (v : JsValue) : bool :=
  match v with JsArray _ => true | _ => false end.

Fixpoint lookupProp (key : string) (props : list (string * JsValue)) : option JsValue :=
  match props with
  | [] => None
  | (k, v) :: rest => if String.eqb k key then Some v else lookupProp key rest
  end.

(** [v.key] for a key that is not an array index nor a built-in: reading it
    off [undefined] or [null] throws, off any other value that does not own
    it gives [undefined]. *)
Definition getProp (v : JsValue) (key : string) : Completion JsValue TypeError :=
  match v with
  | JsUndefined | JsNull => Throw (CannotReadProperty key)
  | JsObject props =>
      match lookupProp key props with
      | Some x => Return x
      | None => Return JsUndefined
      end
  | _ => Return JsUndefined
  end.

(** [String(n)] for an integral number, as its decimal digits: what
    JavaScript prints for the integers below 10^21 in absolute value.  From
    10^21 on JavaScript prints the exponent form (["1e+21"]); these numbers
    are outside what [numberToString] describes. *)
Definition numberToString (n : Z) : string :=
  NilZero.string_of_int (Z.to_int n).

(** [String(v)], with [Array.prototype.join] inlined for arrays: a hole,
    [undefined] or [null] joins as the empty string. *)
Fixpoint ToString (v : JsValue) : string :=
  match v with
  | JsUndefined => "undefined"
  | JsNull => "null"
  | JsBool true => "true"
  | JsBool false => "false"
  | JsNumber n => numberToString n
  | JsNaN => "NaN"
  | JsString s => s
  | JsArray xs =>
      String.concat ","
        (map (fun x => match x with
                       | JsUndefined | JsNull => ""
                       | _ => ToString x
                       end) xs)
  | JsObject _ => "[object Object]"
  end.

Definition joinItem (x : JsValue) : string :=
  match x with
  | JsUndefined | JsNull => ""
  | _ => ToString x
  end.

(** [xs.join(sep)] *)
Definition join (sep : string) (xs : list JsValue) : string :=
  String.concat sep (map joinItem xs).

End Js.
Export Js.

(* ===================================================================== *)
(** * Author normalisation: [getAuthorString]                             *)
(* ===================================================================== *)

(** The payload of a value whose [typeof] is ["string"], and the elements
    of one that [Array.isArray] accepts: the TypeScript narrowings of
    [return author], [return author.name] and [author.name.join]. *)
Definition asString (v : JsValue) : string :=
  match v with JsString s => s | _ => "" end.

Definition asArray (v : JsValue) : list JsValue :=
  match v with JsArray xs => xs | _ => [] end.

(** [function getAuthorString(author: any): string | null] *)
Definition getAuthorString (author : JsValue) : Completion (option string) TypeError :=
  if negb (truthy author) then Return None
  else if String.eqb (typeof author) "string" then Return (Some (asString author))
  else if String.eqb (typeof author) "object" then
    match getProp author "name" with
    | Throw e => Throw e
    | Return name =>
        if truthy name then
          if isArray name then Return (Some (join ", " (asArray name)))
          else if String.eqb (typeof name) "string" then Return (Some (asString name))
          else Return None
        else Return None
    end
  else Return None.



(* ===================================================================== *)
(** * The database                                                        *)
(* ===================================================================== *)

(** One document of the [rssArticle] collection.  [feedId] is the feed the
    article was first seen in (the specification's [primaryFeedId]). *)
Record RssArticle : Type := mkRssArticle {
  id : nat;
  feedId : string;
  guid : string;
  sourceFeedIds : list string;
  title : string;
  link : string;
  content : option string;
  summary : option string;
  pubDate : Z;
  author : option string;
  categories : list string;
  imageUrl : option string
}.

(** What JavaScript code can catch: an error of the Prisma client that
    carries a [code], a [TypeError] of the language, or anything else. *)
Inductive JsError : Type :=
| PrismaClientKnownRequestError (code : string) (message : string)
| TypeErrorThrown (e : TypeError)
| OtherError (message : string).

(** [error.code] *)
Definition errorCode (error : JsError) : option string :=
  match error with
  | PrismaClientKnownRequestError c _ => Some c
  | _ => None
  end.

(** The state an action runs in.
      - [articles]: the [rssArticle] collection, in insertion order; the
        collection has a unique index on [guid].
      - [nextId]: the next identifier the store hands out.
      - [pending]: what the database does with the calls to come, one entry
        per call: [None] serves the call, [Some e] makes it fail with [e]
        (a lost connection, a conflict with a concurrent writer, ...).
        Calls beyond the list are served.
      - [console]: the lines written with [console.error], oldest first. *)
Record World : Type := mkWorld {
  articles : list RssArticle;
  nextId : nat;
  pending : list (option JsError);
  console : list (string * JsError)
}.

Definition Db (A : Type) : Type := World -> Completion A JsError * World.

Definition ret {A : Type} (a : A) : Db A := fun w => (Return a, w).

Definition throw {A : Type} (e : JsError) : Db A := fun w => (Throw e, w).

Definition bind {A B : Type} (m : Db A) (k : A -> Db B) : Db B :=
  fun w =>
    match m w with
    | (Return a, w') => k a w'
    | (Throw e, w') => (Throw e, w')
    end.

(** [try { body } catch (error) { handler }] *)
Definition tryCatch {A : Type} (body : Db A) (handler : JsError -> Db A) : Db A :=
  fun w =>
    match body w with
    | (Return a, w') => (Return a, w')
    | (Throw e, w') => handler e w'
    end.

Declare Scope db_scope.
Delimit Scope db_scope with db.
Notation "x <- m ;; k" := (bind m (fun x => k))
  (at level 100, m at next level, right associativity) : db_scope.
Notation "m ;;; k" := (bind m (fun _ => k))
  (at level 100, right associativity) : db_scope.

(** [console.error(message, error)] *)
Definition console_error (message : string) (error : JsError) : Db unit :=
  fun w =>
    (Return tt,
     {| articles := articles w; nextId := nextId w; pending := pending w;
        console := console w ++ [(message, error)] |}).

Definition setArticles (l : list RssArticle) (w : World) : World :=
  {| articles := l; nextId := nextId w; pending := pending w; console := console w |}.

Definition setPending (p : list (option JsError)) (w : World) : World :=
  {| articles := articles w; nextId := nextId w; pending := p; console := console w |}.

(** A call to the database: the next entry of [pending] decides whether it
    is served. *)
Definition dbCall {A : Type} (served : Db A) : Db A :=
  fun w =>
    match pending w with
    | Some e :: rest => (Throw e, setPending rest w)
    | None :: rest => served (setPending rest w)
    | [] => served w
    end.

Definition withSourceFeedIds (l : list string) (a : RssArticle) : RssArticle :=
  {| id := id a; feedId := feedId a; guid := guid a; sourceFeedIds := l;
     title := title a; link := link a; content := content a;
     summary := summary a; pubDate := pubDate a; author := author a;
     categories := categories a; imageUrl := imageUrl a |}.

(** The document with a given [guid], if the collection holds one. *)
Definition byGuid (g : string) (l : list RssArticle) : option RssArticle :=
  find (fun a => String.eqb (guid a) g) l.

(** [{ sourceFeedIds: { push: f } }] applied to the document with guid [g]. *)
Fixpoint pushSourceFeedId (g f : string) (l : list RssArticle) : list RssArticle :=
  match l with
  | [] => []
  | a :: rest =>
      if String.eqb (guid a) g
      then withSourceFeedIds (sourceFeedIds a ++ [f]) a :: rest
      else a :: pushSourceFeedId g f rest
  end.

Inductive SortOrder : Type := asc | desc.

(** An [orderBy] clause on a date column. *)
Record OrderBy : Type := mkOrderBy {
  column : RssArticle -> Z;
  direction : SortOrder
}.

(** [a] may stay in front of [b]. *)
Definition inOrder (o : OrderBy) (a b : RssArticle) : bool :=
  match direction o with
  | asc => column o a <=? column o b
  | desc => column o b <=? column o a
  end.

(** Sorting keeps documents with equal keys in collection order. *)
Fixpoint insertSorted (o : OrderBy) (a : RssArticle) (l : list RssArticle) : list RssArticle :=
  match l with
  | [] => [a]
  | b :: rest => if inOrder o a b then a :: l else b :: insertSorted o a rest
  end.

Fixpoint sortBy (o : OrderBy) (l : list RssArticle) : list RssArticle :=
  match l with
  | [] => []
  | a :: rest => insertSorted o a (sortBy o rest)
  end.

(** [take: n]: the first [n] of the ordered list, or for a negative [n] its
    last [-n]. *)
Definition takeZ (n : Z) (l : list RssArticle) : list RssArticle :=
  if 0 <=? n then firstn (Z.to_nat n) l
  else skipn (List.length l - Z.to_nat (- n))%nat l.

Module prisma.
Module rssArticle.

(** [findUnique({ where: { guid } })] *)
Definition findUnique (g : string) : Db (option RssArticle) :=
  dbCall (fun w => (Return (byGuid g (articles w)), w)).

(** [update({ where: { guid }, data: { sourceFeedIds: { push } } })] *)
Definition update (g : string) (push : string) : Db RssArticle :=
  dbCall (fun w =>
    match byGuid g (articles w) with
    | Some a =>
        (Return (withSourceFeedIds (sourceFeedIds a ++ [push]) a),
         setArticles (pushSourceFeedId g push (articles w)) w)
    | None =>
        (Throw (PrismaClientKnownRequestError "P2025" "Record to update not found."), w)
    end).

(** [create({ data })]: the store assigns the [id]; a second document with
    a [guid] already in the collection violates the unique index. *)
Definition create (data : nat -> RssArticle) : Db RssArticle :=
  dbCall (fun w =>
    let a := data (nextId w) in
    match byGuid (guid a) (articles w) with
    | Some _ =>
        (Throw (PrismaClientKnownRequestError "P2002"
                  "Unique constraint failed on the fields: (`guid`)"), w)
    | None =>
        (Return a,
         {| articles := articles w ++ [a]; nextId := S (nextId w);
            pending := pending w; console := console w |})
    end).

(** [findMany({ where, orderBy, take })] *)
Definition findMany (where_ : RssArticle -> bool) (orderBy : OrderBy) (take : Z)
  : Db (list RssArticle) :=
  dbCall (fun w => (Return (takeZ take (sortBy orderBy (filter where_ (articles w)))), w)).

End rssArticle.
End prisma.

(* ===================================================================== *)
(** * The helpers the actions import                                      *)
(* ===================================================================== *)

(** [lib/database/error-handler] is not among the sources.  Its two exports
    are taken as an interface: [wrapDatabaseOperation] runs the operation and
    hands its result through, and what it throws when the operation throws
    is [wrapError] of the operation's name and the error; [isPrismaError] is
    the type guard of the same module. *)
Class ErrorHandler : Type := {
  wrapError : string -> JsError -> JsError;
  isPrismaError : JsError -> bool
}.

(** The handler that rethrows what it caught. *)
Definition rethrowingHandler : ErrorHandler := {|
  wrapError := fun _ e => e;
  isPrismaError := fun e => match e with
                            | PrismaClientKnownRequestError _ _ => true
                            | _ => false
                            end
|}.


Definition wrapDatabaseOperation {H : ErrorHandler} {A : Type}
  (operation : Db A) (operationName : string) : Db A :=
  tryCatch operation (fun e => throw (wrapError operationName e)).

(** [lib/database/prisma-helpers] is not among the sources either.
    [ARTICLE_WITH_FEED_INCLUDE] makes the store attach the feed of each
    article; what is attached is left open. *)
Class PrismaHelpers : Type := {
  Feed : Type;
  ARTICLE_WITH_FEED_INCLUDE : RssArticle -> Feed
}.

(** Modelled from the spec: [ARTICLE_ORDER_BY_DATE_DESC] is a constant of
    [lib/database/prisma-helpers]; by its name and by section 4.3 ("ordering:
    descending by pubDate") it is [{ pubDate: "desc" }]. *)
Definition ARTICLE_ORDER_BY_DATE_DESC : OrderBy :=
  {| column := pubDate; direction := desc |}.

(** [ArticleCreateData] of [lib/rss/types], as the action reads it. *)
Module ArticleCreateData.
Record t : Type := mk {
  feedId : string;
  guid : string;
  title : string;
  link : string;
  content : option string;
  summary : option string;
  pubDate : Z;
  author : JsValue;
  categories : option (list string);
  imageUrl : option string
}.
End ArticleCreateData.

Record BulkOperationResult : Type := mkBulkOperationResult {
  created : nat;
  skipped : nat;
  errors : nat
}.

(** An article as [getArticlesByFeedsAndDateRange] returns it: the document,
    the included feed and the computed [sourceCount]. *)
Record ScoredArticle {P : PrismaHelpers} : Type := mkScoredArticle {
  article : RssArticle;
  feed : Feed;
  sourceCount : nat
}.
Arguments ScoredArticle : clear implicits.
Arguments ScoredArticle {P}.

(* ===================================================================== *)
(** * The actions of [rss-article.ts]                                     *)
(* ===================================================================== *)

(** [xs.includes(x)] *)
Definition includes (xs : list string) (x : string) : bool :=
  existsb (String.eqb x) xs.

(** [a ?? b] *)
Definition nullish {A : Type} (a : option A) (b : A) : A :=
  match a with Some x => x | None => b end.

(** A synchronous call inside an [async] function. *)
Definition liftJs {A : Type} (c : Completion A TypeError) : Db A :=
  fun w =>
    match c with
    | Return a => (Return a, w)
    | Throw e => (Throw (TypeErrorThrown e), w)
    end.

Section Actions.
Context {H : ErrorHandler} {P : PrismaHelpers}.
Local Open Scope db_scope.

(** What [createRssArticle] does once [findUnique] has answered.  (The
    first [findUnique] selects [id] and [sourceFeedIds] only; of its answer
    the code reads [sourceFeedIds].) *)
Definition createOrMerge (data : ArticleCreateData.t) (existing : option RssArticle)
  : Db (option RssArticle) :=
  match existing with
  | Some existing =>
      if negb (includes (sourceFeedIds existing) (ArticleCreateData.feedId data))
      then
        updated <- prisma.rssArticle.update
                     (ArticleCreateData.guid data) (ArticleCreateData.feedId data) ;;
        ret (Some updated)
      else prisma.rssArticle.findUnique (ArticleCreateData.guid data)
  | None =>
      name <- liftJs (getAuthorString (ArticleCreateData.author data)) ;;
      made <- prisma.rssArticle.create (fun newId =>
                {| id := newId;
                   feedId := ArticleCreateData.feedId data;
                   guid := ArticleCreateData.guid data;
                   sourceFeedIds := [ArticleCreateData.feedId data];
                   title := ArticleCreateData.title data;
                   link := ArticleCreateData.link data;
                   content := ArticleCreateData.content data;
                   summary := ArticleCreateData.summary data;
                   pubDate := ArticleCreateData.pubDate data;
                   author := Some (nullish name "Demo user");
                   categories := nullish (ArticleCreateData.categories data) [];
                   imageUrl := ArticleCreateData.imageUrl data |}) ;;
      ret (Some made)
  end.

(** The document [createRssArticle] hands to [create]. *)
Definition newArticle (data : ArticleCreateData.t) (name : option string) (newId : nat)
  : RssArticle :=
  {| id := newId;
     feedId := ArticleCreateData.feedId data;
     guid := ArticleCreateData.guid data;
     sourceFeedIds := [ArticleCreateData.feedId data];
     title := ArticleCreateData.title data;
     link := ArticleCreateData.link data;
     content := ArticleCreateData.content data;
     summary := ArticleCreateData.summary data;
     pubDate := ArticleCreateData.pubDate data;
     author := Some (nullish name "Demo user");
     categories := nullish (ArticleCreateData.categories data) [];
     imageUrl := ArticleCreateData.imageUrl data |}.

(** [export async function createRssArticle(data: ArticleCreateData)] *)
Definition createRssArticle (data : ArticleCreateData.t) : Db (option RssArticle) :=
  wrapDatabaseOperation
    (existing <- prisma.rssArticle.findUnique (ArticleCreateData.guid data) ;;
     createOrMerge data existing)
    "create RSS article".

Definition countCreated (r : BulkOperationResult) : BulkOperationResult :=
  {| created := S (created r); skipped := skipped r; errors := errors r |}.

Definition countSkipped (r : BulkOperationResult) : BulkOperationResult :=
  {| created := created r; skipped := S (skipped r); errors := errors r |}.

Definition countError (r : BulkOperationResult) : BulkOperationResult :=
  {| created := created r; skipped := skipped r; errors := S (errors r) |}.

(** The number of candidates a result accounts for. *)
Definition processed (r : BulkOperationResult) : nat :=
  (created r + skipped r + errors r)%nat.

(** The line [console.error] writes for a candidate that failed. *)
Definition logged (article : ArticleCreateData.t) (error : JsError) (w : World) : World :=
  {| articles := articles w; nextId := nextId w; pending := pending w;
     console := console w ++
       [(("Failed to create article " ++ ArticleCreateData.guid article ++ ":")%string,
         error)] |}.

(** [isPrismaError(error) && error.code === "P2002"] *)
Definition isDuplicateKey (error : JsError) : bool :=
  isPrismaError error &&
  match errorCode error with
  | Some c => String.eqb c "P2002"
  | None => false
  end.

(** One turn of the loop of [bulkCreateRssArticles]: the [try]/[catch]
    around one candidate. *)
Definition ingestCandidate (article : ArticleCreateData.t) (results : BulkOperationResult)
  : Db BulkOperationResult :=
  tryCatch
    (createRssArticle article ;;; ret (countCreated results))
    (fun error =>
       if isDuplicateKey error then ret (countSkipped results)
       else
         console_error
           ("Failed to create article " ++ ArticleCreateData.guid article ++ ":")%string
           error ;;;
         ret (countError results)).

(** [for (const article of articles) { ... }] *)
Fixpoint forEachArticle (articles : list ArticleCreateData.t) (results : BulkOperationResult)
  : Db BulkOperationResult :=
  match articles with
  | [] => ret results
  | article :: rest =>
      results' <- ingestCandidate article results ;;
      forEachArticle rest results'
  end.

(** [export async function bulkCreateRssArticles(articles)] *)
Definition bulkCreateRssArticles (articles : list ArticleCreateData.t)
  : Db BulkOperationResult :=
  forEachArticle articles {| created := 0; skipped := 0; errors := 0 |}.

(** [hasSome]: the column shares an element with the given list. *)
Definition hasSome (column : list string) (values : list string) : bool :=
  existsb (fun v => includes values v) column.

(** The [where] clause of [getArticlesByFeedsAndDateRange]. *)
Definition whereFeedsAndDateRange (feedIds : list string) (startDate endDate : Z)
  (a : RssArticle) : bool :=
  (includes feedIds (feedId a) || hasSome (sourceFeedIds a) feedIds)
  && ((startDate <=? pubDate a) && (pubDate a <=? endDate)).

(** [export async function getArticlesByFeedsAndDateRange(feedIds,
    startDate, endDate, limit = 100)] *)
Definition getArticlesByFeedsAndDateRange
  (feedIds : list string) (startDate endDate : Z) (limit : option Z)
  : Db (list ScoredArticle) :=
  let limit := nullish limit 100 in
  wrapDatabaseOperation
    (found <- prisma.rssArticle.findMany
                (whereFeedsAndDateRange feedIds startDate endDate)
                ARTICLE_ORDER_BY_DATE_DESC limit ;;
     ret (map (fun a => {| article := a;
                           feed := ARTICLE_WITH_FEED_INCLUDE a;
                           sourceCount := List.length (sourceFeedIds a) |}) found))
    "fetch articles by feeds and date range".

End Actions.

(* ===================================================================== *)
(** * Concurrent callers of [createRssArticle]                            *)
(* ===================================================================== *)

(** An [async] call gives up control at each [await]; between two awaits of
    one call, other calls may run theirs.  [createRssArticle] awaits the
    database twice: [findUnique], then one of [update], [findUnique] and
    [create].  A [Task] is a call between its awaits; the database serves
    one call at a time. *)
Inductive Task : Type :=
| Started (data : ArticleCreateData.t)
| Looked (data : ArticleCreateData.t) (existing : option RssArticle)
| Settled (outcome : Completion (option RssArticle) JsError).

Section Tasks.
Context {H : ErrorHandler}.

Definition settle (r : Completion (option RssArticle) JsError * World) : Task * World :=
  match r with
  | (Return a, w) => (Settled (Return a), w)
  | (Throw e, w) => (Settled (Throw (wrapError "create RSS article" e)), w)
  end.

(** The task runs up to its next await. *)
Definition stepTask (t : Task) (w : World) : Task * World :=
  match t with
  | Started data =>
      match prisma.rssArticle.findUnique (ArticleCreateData.guid data) w with
      | (Return existing, w') => (Looked data existing, w')
      | (Throw e, w') => settle (Throw e, w')
      end
  | Looked data existing => settle (createOrMerge data existing w)
  | Settled outcome => (Settled outcome, w)
  end.

(** Two calls under a schedule: [true] lets the first run its next step,
    [false] the second. *)
Fixpoint interleave (schedule : list bool) (t1 t2 : Task) (w : World)
  : Task * Task * World :=
  match schedule with
  | [] => (t1, t2, w)
  | true :: rest => let (t1', w') := stepTask t1 w in interleave rest t1' t2 w'
  | false :: rest => let (t2', w') := stepTask t2 w in interleave rest t1 t2' w'
  end.

Definition isSettled (t : Task) : bool :=
  match t with Settled _ => true | _ => false end.

End Tasks.

(** The awaits a task still has before it. *)
Definition awaitsLeft (t : Task) : nat :=
  match t with
  | Started _ => 2
  | Looked _ _ => 1
  | Settled _ => 0
  end.

(** The number of turns a schedule gives to the first ([true]) or the second
    ([false]) call. *)
Definition turns (who : bool) (schedule : list bool) : nat :=
  count_occ bool_dec schedule who.

(** What holds of the stored article [a] with guid [g] while two calls race
    to add the feeds [fa] and [fb] to the [sourceFeedIds] it had at the
    start, [initial]: the database serves its calls, no feed is listed
    twice, nothing is listed but the initial feeds and the two new ones, and
    no initial feed has gone. *)
Definition raceStore (g fa fb : string) (initial : list string)
  (w : World) (a : RssArticle) : Prop :=
  byGuid g (articles w) = Some a /\
  pending w = [] /\
  NoDup (sourceFeedIds a) /\
  (forall x, In x (sourceFeedIds a) -> In x initial \/ x = fa \/ x = fb) /\
  (forall x, In x initial -> In x (sourceFeedIds a)).

(** What holds of the call that adds feed [f], against the stored article
    [a]: before its [findUnique], [f] is listed only if it was initially;
    between its two calls to the database, [f] is listed exactly if it was
    listed in the answer of [findUnique]; once settled, the call has
    returned and [f] is listed. *)
Definition raceTask (g f : string) (initial : list string)
  (a : RssArticle) (t : Task) : Prop :=
  match t with
  | Started data =>
      ArticleCreateData.guid data = g /\ ArticleCreateData.feedId data = f /\
      (In f (sourceFeedIds a) -> In f initial)
  | Looked data existing =>
      ArticleCreateData.guid data = g /\ ArticleCreateData.feedId data = f /\
      exists e, existing = Some e /\
                (In f (sourceFeedIds e) <-> In f (sourceFeedIds a))
  | Settled outcome =>
      (exists r, outcome = Return r) /\ In f (sourceFeedIds a)
  end.

(* ===================================================================== *)
(** * The newsletter types                                                *)
(* ===================================================================== *)

(** The part of zod that [NewsletterSchema] uses.  A schema is its
    [safeParse]: the parsed data, or [None] for a [ZodError]. *)
Module z.

Definition Schema : Type := JsValue -> option JsValue.

(** [z.string()] *)
Definition string : Schema :=
  fun v => match v with JsString _ => Some v | _ => None end.

Fixpoint parseAll (element : Schema) (xs : list JsValue) : option (list JsValue) :=
  match xs with
  | [] => Some []
  | x :: rest =>
      match element x, parseAll element rest with
      | Some y, Some ys => Some (y :: ys)
      | _, _ => None
      end
  end.

(** [z.array(element)] *)
Definition array (element : Schema) : Schema :=
  fun v =>
    match v with
    | JsArray xs => option_map JsArray (parseAll element xs)
    | _ => None
    end.

(** [arraySchema.length(n)]: exactly [n] elements. *)
Definition length (n : nat) (arraySchema : Schema) : Schema :=
  fun v =>
    match arraySchema v with
    | Some (JsArray xs) => if Nat.eqb (List.length xs) n then Some (JsArray xs) else None
    | _ => None
    end.

(** [schema.optional()] *)
Definition optional (schema : Schema) : Schema :=
  fun v => match v with JsUndefined => Some JsUndefined | _ => schema v end.

(** The properties of the parsed object: those of the shape, unknown keys
    stripped; a key that is missing and parses to [undefined] stays
    missing. *)
Fixpoint parseShape (shape : list (String.string * Schema))
  (props : list (String.string * JsValue)) : option (list (String.string * JsValue)) :=
  match shape with
  | [] => Some []
  | (key, schema) :: rest =>
      let input := match lookupProp key props with Some x => x | None => JsUndefined end in
      match schema input, parseShape rest props with
      | Some parsed, Some others =>
          match lookupProp key props, parsed with
          | None, JsUndefined => Some others
          | _, _ => Some ((key, parsed) :: others)
          end
      | _, _ => None
      end
  end.

(** [z.object(shape)] *)
Definition object (shape : list (String.string * Schema)) : Schema :=
  fun v =>
    match v with
    | JsObject props => option_map JsObject (parseShape shape props)
    | _ => None
    end.

End z.

(** [export const NewsletterSchema = z.object({ ... })] *)
Definition NewsletterSchema : z.Schema :=
  z.object
    [ ("suggestedTitles", z.length 5 (z.array z.string));
      ("suggestedSubjectLines", z.length 5 (z.array z.string));
      ("body", z.string);
      ("topAnnouncements", z.length 5 (z.array z.string));
      ("additionalInfo", z.optional z.string) ].

(** [type GeneratedNewsletter = z.infer<typeof NewsletterSchema>].  The
    type does not carry the lengths: a value of it is any object with these
    fields. *)
Record GeneratedNewsletter : Type := mkGeneratedNewsletter {
  suggestedTitles : list string;
  suggestedSubjectLines : list string;
  body : string;
  topAnnouncements : list string;
  additionalInfo : option string
}.

(** The object a [GeneratedNewsletter] is at run time. *)
Definition newsletterObject (n : GeneratedNewsletter) : JsValue :=
  JsObject
    ([ ("suggestedTitles", JsArray (map JsString (suggestedTitles n)));
       ("suggestedSubjectLines", JsArray (map JsString (suggestedSubjectLines n)));
       ("body", JsString (body n));
       ("topAnnouncements", JsArray (map JsString (topAnnouncements n))) ]
     ++ match additionalInfo n with
        | Some s => [("additionalInfo", JsString s)]
        | None => []
        end).

Record SaveRequest : Type := mkSaveRequest {
  newsletter : JsValue;
  feedIds : list string;
  startDate : Z;
  endDate : Z;
  userInput : option string
}.

Inductive SaveError : Type :=
| ValidationError.

(** Modelled from the spec: [saveGeneratedNewsletter] lives in
    [actions/generate-newsletter], which is not among the sources.  Section
    4.5: it "fails with ValidationError if any of the [...] fixed-length
    arrays does not have exactly 5 elements at save time; otherwise hands off
    to the external [...] store"; section 7: shape violations "are rejected
    before reaching persistent storage - never silently coerced".  The shape
    is [NewsletterSchema]; the store is the list of the requests saved so
    far. *)
Definition saveGeneratedNewsletter (request : SaveRequest) (saved : list SaveRequest)
  : Completion unit SaveError * list SaveRequest :=
  match NewsletterSchema (newsletter request) with
  | Some parsed =>
      (Return tt,
       (saved ++ [ {| newsletter := parsed; feedIds := feedIds request;
                      startDate := startDate request; endDate := endDate request;
                      userInput := userInput request |} ])%list)
  | None => (Throw ValidationError, saved)
  end.


(** The three arrays of a newsletter have five elements each. *)
Definition fiveOfEach (n : GeneratedNewsletter) : bool :=
  Nat.eqb (List.length (suggestedTitles n)) 5
  && Nat.eqb (List.length (suggestedSubjectLines n)) 5
  && Nat.eqb (List.length (topAnnouncements n)) 5.

(** The request to save newsletter [n]. *)
Definition saveRequest (n : GeneratedNewsletter) (feeds : list string)
  (from to : Z) (input : option string) : SaveRequest :=
  {| newsletter := newsletterObject n; feedIds := feeds;
     startDate := from; endDate := to; userInput := input |}.

(* ===================================================================== *)
(** * The selection of section 4.3, in the specification's words          *)
(* ===================================================================== *)

(** "An article matches if (primaryFeedId in feedIds OR sourceFeedIds and
    feedIds intersect) AND pubDate within [startDate, endDate] inclusive." *)
Definition selected_spec (feedIds : list string) (startDate endDate : Z)
  (a : RssArticle) : Prop :=
  (In (feedId a) feedIds \/ exists f, In f (sourceFeedIds a) /\ In f feedIds)
  /\ startDate <= pubDate a <= endDate.

(* ===================================================================== *)
(** * Sample data                                                         *)
(* ===================================================================== *)

(** Helpers that attach the primary feed identifier as "the feed". *)
Definition feedIdHelpers : PrismaHelpers :=
  {| Feed := string; ARTICLE_WITH_FEED_INCLUDE := feedId |}.

Definition emptyWorld : World :=
  {| articles := []; nextId := 0; pending := []; console := [] |}.

(** The two observations of the example scenario of section 8. *)
Definition observation (g f t : string) (date : Z) : ArticleCreateData.t :=
  {| ArticleCreateData.feedId := f;
     ArticleCreateData.guid := g;
     ArticleCreateData.title := t;
     ArticleCreateData.link := "https://example.org/" ++ g;
     ArticleCreateData.content := None;
     ArticleCreateData.summary := None;
     ArticleCreateData.pubDate := date;
     ArticleCreateData.author := JsUndefined;
     ArticleCreateData.categories := None;
     ArticleCreateData.imageUrl := None |}.

Definition firstSeen : ArticleCreateData.t := observation "abc" "f1" "X" 1000.
Definition seenAgain : ArticleCreateData.t := observation "abc" "f2" "Y" 2000.

(** An article of feed [f1] published at time [n]. *)
Definition dated (n : nat) : RssArticle :=
  {| id := n; feedId := "f1"; guid := "g" ++ numberToString (Z.of_nat n);
     sourceFeedIds := ["f1"]; title := "T"; link := "L";
     content := None; summary := None; pubDate := Z.of_nat n;
     author := Some "Demo user"; categories := []; imageUrl := None |}.

(** A collection of 101 articles of feed [f1], published at times 0 to 100. *)
Definition crowdedWorld : World :=
  {| articles := map dated (seq 0 101); nextId := 101; pending := []; console := [] |}.

(** The article of the example scenario once feed [f1] has delivered it, and
    candidates that observe it through [f2] and [f3]. *)
Definition storedOnce : World :=
  {| articles := [newArticle firstSeen None 0]; nextId := 1;
     pending := []; console := [] |}.

Definition seenThird : ArticleCreateData.t := observation "abc" "f3" "Z" 3000.

(** The same article once feed [f2] has delivered it too. *)
Definition storedTwice : World :=
  {| articles := [withSourceFeedIds ["f1"; "f2"] (newArticle firstSeen None 0)];
     nextId := 1; pending := []; console := [] |}.



(** A newsletter with [k] suggested titles and five of everything else. *)
Definition draft (k : nat) : GeneratedNewsletter :=
  {| suggestedTitles := repeat "title" k;
     suggestedSubjectLines := repeat "subject" 5;
     body := "body";
     topAnnouncements := repeat "announcement" 5;
     additionalInfo := None |}.

(* ===================================================================== *)
(** * Invariants of the collection                                        *)
(* ===================================================================== *)

(** An article lists no feed twice and lists the feed it was first seen
    in. *)
Definition articleOk (a : RssArticle) : Prop :=
  NoDup (sourceFeedIds a) /\ In (feedId a) (sourceFeedIds a).

(** The collection holds each guid and each id once, every id was handed
    out by the store, and every article is [articleOk]. *)
Definition storeOk (w : World) : Prop :=
  NoDup (map guid (articles w)) /\
  NoDup (map id (articles w)) /\
  Forall (fun a => (id a < nextId w)%nat) (articles w) /\
  Forall articleOk (articles w).

(** What one call of [createRssArticle] can have done to the collection. *)
Inductive Effect (data : ArticleCreateData.t) (w w' : World) : Prop :=
| Untouched :
    articles w' = articles w -> nextId w' = nextId w -> Effect data w w'
| Created (name : option string) :
    byGuid (ArticleCreateData.guid data) (articles w) = None ->
    getAuthorString (ArticleCreateData.author data) = Return name ->
    articles w' = articles w ++ [newArticle data name (nextId w)] ->
    nextId w' = S (nextId w) ->
    Effect data w w'
| Merged (a : RssArticle) :
    byGuid (ArticleCreateData.guid data) (articles w) = Some a ->
    includes (sourceFeedIds a) (ArticleCreateData.feedId data) = false ->
    articles w' = pushSourceFeedId (ArticleCreateData.guid data)
                    (ArticleCreateData.feedId data) (articles w) ->
    nextId w' = nextId w ->
    Effect data w w'.

(** [a'] is [a] with, possibly, more source feeds at the end. *)
Definition grownFrom (a a' : RssArticle) : Prop :=
  exists more, a' = withSourceFeedIds (sourceFeedIds a ++ more) a.

(** The sum of two results, counter by counter. *)
Definition addResults (r1 r2 : BulkOperationResult) : BulkOperationResult :=
  {| created := created r1 + created r2;
     skipped := skipped r1 + skipped r2;
     errors := errors r1 + errors r2 |}.

(* ===================================================================== *)
(** * The generation page                                                 *)
(* ===================================================================== *)

(** [const newsletterSchema = z.object({ ... })] of the generation page: the
    schema the streamed object is read with, without the [.length(5)]. *)
Definition newsletterSchema : z.Schema :=
  z.object
    [ ("suggestedTitles", z.array z.string);
      ("suggestedSubjectLines", z.array z.string);
      ("body", z.string);
      ("topAnnouncements", z.array z.string);
      ("additionalInfo", z.optional z.string) ].

(** [schema'] accepts what [schema] accepts, with the same parsed data. *)
Definition accepts_more (schema schema' : z.Schema) : Prop :=
  forall v parsed, schema v = Some parsed -> schema' v = Some parsed.

Module GenerationPage.

(** [params], as the page builds it from the search parameters. *)
Record Params : Type := mkParams {
  feedIds : JsValue;
  startDate : string;
  endDate : string;
  userInput : option string
}.

(** What the request to [/api/newsletter/prepare] can come to: [fetch]
    rejects; the response is [ok] and its body reads as the two counts; the
    response is not [ok] and its body carries an error message; or
    [response.json()] rejects. *)
Inductive PrepareOutcome : Type :=
| FetchRejected
| Prepared (feedsToRefresh articlesFound : Z)
| Refused (error : string)
| BodyUnreadable (ok : bool).

(** What the page does that can be seen from outside. *)
Inductive UiEvent : Type :=
| ToastInfo (message : string)
| ToastError (message : string)
| SetArticlesCount (n : Z)
| ConsoleError (message : string)
| Submit (params : Params).

(** [n > 1 ? "s" : ""] *)
Definition plural (n : Z) : string := if 1 <? n then "s" else "".

(** The [catch] block of [startGeneration]. *)
Definition prepareFailed (params : Params) : list UiEvent :=
  [ ConsoleError "Failed to prepare newsletter:";
    ToastError "An unexpected error occurred during preparation.";
    Submit params ].

(** [const startGeneration = async () => { ... }] *)
Definition startGeneration (params : Params) (outcome : PrepareOutcome) : list UiEvent :=
  match outcome with
  | FetchRejected => prepareFailed params
  | BodyUnreadable _ => prepareFailed params
  | Prepared feedsToRefresh articlesFound =>
      (if 0 <? feedsToRefresh
       then [ToastInfo ("Refreshing " ++ numberToString feedsToRefresh ++ " feed"
                          ++ plural feedsToRefresh ++ "...")%string]
       else [])
      ++ (if 0 <? articlesFound
          then [ToastInfo ("Analyzing " ++ numberToString articlesFound ++ " article"
                             ++ plural articlesFound ++ " from your feeds...")%string;
                SetArticlesCount articlesFound]
          else [])
      ++ [Submit params]
  | Refused error =>
      [ ToastError ("Failed to prepare newsletter: " ++ error)%string; Submit params ]
  end.

(** The body of the effect that starts the generation, run after a render:
    [hasStarted] is [hasStartedRef.current] before, the first component of
    the result is its value after. *)
Definition startEffect (params : option Params) (outcome : PrepareOutcome)
  (hasStarted : bool) : bool * list UiEvent :=
  match params with
  | None => (hasStarted, [])
  | Some p =>
      if hasStarted then (hasStarted, [])
      else (true, startGeneration p outcome)
  end.

(** The renders of one page, in order: for each, the [params] of that render
    and what the request to prepare would come to if it were made then. *)
Fixpoint renders (rs : list (option Params * PrepareOutcome)) (hasStarted : bool)
  : bool * list UiEvent :=
  match rs with
  | [] => (hasStarted, [])
  | (params, outcome) :: rest =>
      let (started, events) := startEffect params outcome hasStarted in
      let (final, later) := renders rest started in
      (final, events ++ later)
  end.

(** The parameters the page has submitted. *)
Definition submitted (events : list UiEvent) : list Params :=
  flat_map (fun e => match e with Submit p => [p] | _ => [] end) events.

(** The parameters of the first render that has some. *)
Fixpoint firstParams (rs : list (option Params * PrepareOutcome)) : option Params :=
  match rs with
  | [] => None
  | (Some p, _) :: _ => Some p
  | (None, _) :: rest => firstParams rest
  end.

End GenerationPage.

(* ===================================================================== *)
(** * Properties                                                          *)
(* ===================================================================== *)

(* --------------------------------------------------------------------- *)
(** ** Properties of [getAuthorString]                                    *)
(* --------------------------------------------------------------------- *)

Lemma join_strings (sep : string) (strs : list string) :
  join sep (map JsString strs) = String.concat sep strs.
Proof.
  unfold join. rewrite map_map. simpl. now rewrite map_id.
Qed.

Lemma ToString_array (xs : list JsValue) : ToString (JsArray xs) = join "," xs.
Proof. reflexivity. Qed.

Lemma getAuthorString_object (props : list (string * JsValue)) :
  getAuthorString (JsObject props) =
  match lookupProp "name" props with
  | Some (JsArray xs) => Return (Some (join ", " xs))
  | Some (JsString s) => Return (if String.eqb s "" then None else Some s)
  | _ => Return None
  end.
Proof.
  unfold getAuthorString. simpl.
  destruct (lookupProp "name" props) as [name|]; [|reflexivity].
  destruct name as [ | |b|n| |s|xs|ps]; simpl; try reflexivity.
  - now destruct b.
  - now destruct (n =? 0).
  - now destruct (String.eqb s "").
Qed.

Lemma getAuthorString_returns (author : JsValue) :
  exists r, getAuthorString author = Return r.
Proof.
  destruct author as [ | |b|n| |s|xs|props].
  1-5: unfold getAuthorString; simpl; eauto.
  - destruct b; simpl; eauto.
  - destruct (n =? 0); simpl; eauto.
  - unfold getAuthorString; simpl. destruct (String.eqb s ""); simpl; eauto.
  - unfold getAuthorString; simpl; eauto.
  - rewrite getAuthorString_object.
    destruct (lookupProp "name" props) as [[ | | | | | | | ]|]; eauto.
Qed.






(* --------------------------------------------------------------------- *)
(** ** The collection                                                     *)
(* --------------------------------------------------------------------- *)

Lemma includes_In (xs : list string) (x : string) :
  includes xs x = true <-> In x xs.
Proof.
  unfold includes. rewrite existsb_exists. split.
  - intros [y [Hy Heq]]. apply String.eqb_eq in Heq. now subst.
  - intros Hin. exists x. split; [assumption|apply String.eqb_refl].
Qed.



Lemma byGuid_None (g : string) (l : list RssArticle) :
  byGuid g l = None <-> forall a, In a l -> guid a <> g.
Proof.
  unfold byGuid. split.
  - intros Hnone a Hin Heq.
    pose proof (find_none _ _ Hnone a Hin) as Hneq. simpl in Hneq.
    apply String.eqb_neq in Hneq. contradiction.
  - intros Hall. induction l as [|b l IH]; [reflexivity|]. simpl.
    destruct (String.eqb (guid b) g) eqn:Heq.
    + apply String.eqb_eq in Heq. exfalso. apply (Hall b); [now left|assumption].
    + apply IH. intros a Hin. apply Hall. now right.
Qed.


Lemma byGuid_push (g f : string) (l : list RssArticle) (a : RssArticle) :
  byGuid g l = Some a ->
  byGuid g (pushSourceFeedId g f l) = Some (withSourceFeedIds (sourceFeedIds a ++ [f]) a).
Proof.
  unfold byGuid. induction l as [|b l IH]; simpl; [discriminate|].
  destruct (String.eqb (guid b) g) eqn:Heq; simpl.
  - intros [= ->]. now rewrite Heq.
  - rewrite Heq. exact IH.
Qed.

Lemma byGuid_push_other (g g' f : string) (l : list RssArticle) :
  g' <> g -> byGuid g' (pushSourceFeedId g f l) = byGuid g' l.
Proof.
  unfold byGuid. intros Hne. induction l as [|b l IH]; simpl; [reflexivity|].
  destruct (String.eqb (guid b) g) eqn:Heq; simpl.
  - apply String.eqb_eq in Heq.
    destruct (String.eqb (guid b) g') eqn:Heq'; [|reflexivity].
    apply String.eqb_eq in Heq'. congruence.
  - now rewrite IH.
Qed.


Lemma filter_guid_push (g f : string) (l : list RssArticle) :
  filter (fun a => String.eqb (guid a) g) (pushSourceFeedId g f (l))
  = match filter (fun a => String.eqb (guid a) g) l with
    | [] => []
    | a :: rest => withSourceFeedIds (sourceFeedIds a ++ [f]) a :: rest
    end.
Proof.
  induction l as [|b l IH]; simpl; [reflexivity|].
  destruct (String.eqb (guid b) g) eqn:Heq; simpl; rewrite Heq; [reflexivity|exact IH].
Qed.


(* --------------------------------------------------------------------- *)
(** ** [createRssArticle], one caller at a time                           *)
(* --------------------------------------------------------------------- *)

Section CreateRssArticle.
Context {H : ErrorHandler}.




End CreateRssArticle.

Section Deduplication.
Context {H : ErrorHandler}.



End Deduplication.

(* --------------------------------------------------------------------- *)
(** ** [bulkCreateRssArticles]                                            *)
(* --------------------------------------------------------------------- *)

Section Bulk.
Context {H : ErrorHandler}.

Lemma ingestCandidate_created (article : ArticleCreateData.t)
  (results : BulkOperationResult) (w w1 : World) (r : option RssArticle) :
  createRssArticle article w = (Return r, w1) ->
  ingestCandidate article results w = (Return (countCreated results), w1).
Proof.
  intros Hcall. unfold ingestCandidate, tryCatch, bind. now rewrite Hcall.
Qed.

Lemma ingestCandidate_skipped (article : ArticleCreateData.t)
  (results : BulkOperationResult) (w w1 : World) (e : JsError) :
  createRssArticle article w = (Throw e, w1) ->
  isDuplicateKey e = true ->
  ingestCandidate article results w = (Return (countSkipped results), w1).
Proof.
  intros Hcall Hdup. unfold ingestCandidate, tryCatch, bind. now rewrite Hcall, Hdup.
Qed.

Lemma ingestCandidate_error (article : ArticleCreateData.t)
  (results : BulkOperationResult) (w w1 : World) (e : JsError) :
  createRssArticle article w = (Throw e, w1) ->
  isDuplicateKey e = false ->
  ingestCandidate article results w = (Return (countError results), logged article e w1).
Proof.
  intros Hcall Hdup. unfold ingestCandidate, tryCatch, bind. now rewrite Hcall, Hdup.
Qed.

Lemma ingestCandidate_returns (article : ArticleCreateData.t)
  (results : BulkOperationResult) (w : World) :
  exists r w1,
    ingestCandidate article results w = (Return r, w1) /\
    processed r = S (processed results).
Proof.
  destruct (createRssArticle article w) as [[r|e] w1] eqn:Hcall.
  - exists (countCreated results), w1. split; [eapply ingestCandidate_created; eassumption|].
    unfold processed. simpl. lia.
  - destruct (isDuplicateKey e) eqn:Hdup.
    + exists (countSkipped results), w1.
      split; [now apply ingestCandidate_skipped with (e := e)|].
      unfold processed. simpl. lia.
    + exists (countError results), (logged article e w1).
      split; [now apply ingestCandidate_error|].
      unfold processed. simpl. lia.
Qed.

Lemma forEachArticle_cons (article : ArticleCreateData.t) (rest : list ArticleCreateData.t)
  (results results' : BulkOperationResult) (w w1 : World) :
  ingestCandidate article results w = (Return results', w1) ->
  forEachArticle (article :: rest) results w = forEachArticle rest results' w1.
Proof. intros Hone. simpl. unfold bind. now rewrite Hone. Qed.

Lemma forEachArticle_returns (candidates : list ArticleCreateData.t) :
  forall (results : BulkOperationResult) (w : World),
  exists r w1,
    forEachArticle candidates results w = (Return r, w1) /\
    processed r = (processed results + List.length candidates)%nat.
Proof.
  induction candidates as [|article rest IH]; intros results w.
  - exists results, w. split; [reflexivity|]. simpl. lia.
  - destruct (ingestCandidate_returns article results w) as [r1 [w1 [Hone Hcount]]].
    destruct (IH r1 w1) as [r [w2 [Hrest Htotal]]].
    exists r, w2. split.
    + erewrite forEachArticle_cons by exact Hone. exact Hrest.
    + rewrite Htotal, Hcount. simpl. lia.
Qed.

(** C4. Batch accounting.  For every sequence of candidates and every state
    of the database, [bulkCreateRssArticles] returns, and the three counters
    of its result add up to the number of candidates. *)
Theorem bulkCreateRssArticles_accounting
  (candidates : list ArticleCreateData.t) (w : World) :
  exists r w1,
    bulkCreateRssArticles candidates w = (Return r, w1) /\
    (created r + skipped r + errors r)%nat = List.length candidates.
Proof.
  destruct (forEachArticle_returns candidates
              {| created := 0; skipped := 0; errors := 0 |} w) as [r [w1 [Hrun Hsum]]].
  exists r, w1. split; [exact Hrun|exact Hsum].
Qed.




End Bulk.




(* --------------------------------------------------------------------- *)
(** ** Ordering and truncation in the store                               *)
(* --------------------------------------------------------------------- *)

Lemma inOrder_total (o : OrderBy) (a b : RssArticle) :
  inOrder o a b = false -> inOrder o b a = true.
Proof.
  unfold inOrder. destruct (direction o); intros Hlt;
    apply Z.leb_gt in Hlt; apply Z.leb_le; lia.
Qed.

Lemma inOrder_trans (o : OrderBy) (a b c : RssArticle) :
  inOrder o a b = true -> inOrder o b c = true -> inOrder o a c = true.
Proof.
  unfold inOrder. destruct (direction o); intros Hab Hbc;
    apply Z.leb_le in Hab; apply Z.leb_le in Hbc; apply Z.leb_le; lia.
Qed.

Lemma insertSorted_Permutation (o : OrderBy) (a : RssArticle) (l : list RssArticle) :
  Permutation (insertSorted o a l) (a :: l).
Proof.
  induction l as [|b l IH]; simpl; [reflexivity|].
  destruct (inOrder o a b); [reflexivity|].
  rewrite IH. apply perm_swap.
Qed.

Lemma sortBy_Permutation (o : OrderBy) (l : list RssArticle) :
  Permutation (sortBy o l) l.
Proof.
  induction l as [|a l IH]; simpl; [reflexivity|].
  rewrite insertSorted_Permutation. now apply perm_skip.
Qed.

Lemma insertSorted_sorted (o : OrderBy) (a : RssArticle) (l : list RssArticle) :
  StronglySorted (fun x y => inOrder o x y = true) l ->
  StronglySorted (fun x y => inOrder o x y = true) (insertSorted o a l).
Proof.
  induction l as [|b l IH]; intros Hsorted; simpl.
  - constructor; constructor.
  - apply StronglySorted_inv in Hsorted as [Htail Hhead].
    destruct (inOrder o a b) eqn:Hab.
    + constructor; [now constructor|].
      constructor; [assumption|].
      rewrite Forall_forall in *. intros x Hx.
      apply inOrder_trans with (b := b); auto.
    + constructor; [now apply IH|].
      rewrite Forall_forall in *. intros x Hx.
      apply (Permutation_in _ (insertSorted_Permutation o a l)) in Hx.
      destruct Hx as [<-|Hx]; [now apply inOrder_total|now apply Hhead].
Qed.

Lemma sortBy_sorted (o : OrderBy) (l : list RssArticle) :
  StronglySorted (fun x y => inOrder o x y = true) (sortBy o l).
Proof.
  induction l as [|a l IH]; simpl; [constructor|now apply insertSorted_sorted].
Qed.

Lemma StronglySorted_firstn {A : Type} (R : A -> A -> Prop) (n : nat) (l : list A) :
  StronglySorted R l -> StronglySorted R (firstn n l).
Proof.
  revert l. induction n as [|n IH]; intros l Hsorted; [constructor|].
  destruct l as [|a l]; [constructor|]. simpl.
  apply StronglySorted_inv in Hsorted as [Htail Hhead].
  constructor; [now apply IH|].
  rewrite Forall_forall in *. intros x Hx. apply Hhead.
  rewrite <- (firstn_skipn n l). apply in_or_app. now left.
Qed.

Lemma StronglySorted_split {A : Type} (R : A -> A -> Prop) (n : nat) (l : list A) :
  StronglySorted R l ->
  forall x y, In x (firstn n l) -> In y (skipn n l) -> R x y.
Proof.
  revert l. induction n as [|n IH]; intros l Hsorted x y Hx Hy; [contradiction|].
  destruct l as [|a l]; [contradiction|]. simpl in Hx, Hy.
  apply StronglySorted_inv in Hsorted as [Htail Hhead].
  destruct Hx as [<-|Hx].
  - rewrite Forall_forall in Hhead. apply Hhead.
    rewrite <- (firstn_skipn n l). apply in_or_app. now right.
  - now apply (IH l).
Qed.

Lemma StronglySorted_map {A B : Type} (R : B -> B -> Prop) (f : A -> B) (l : list A) :
  StronglySorted R (map f l) -> StronglySorted (fun x y => R (f x) (f y)) l.
Proof.
  induction l as [|a l IH]; intros Hsorted; [constructor|].
  simpl in Hsorted. apply StronglySorted_inv in Hsorted as [Htail Hhead].
  constructor; [now apply IH|].
  rewrite Forall_forall in *. intros x Hx. apply Hhead. now apply in_map.
Qed.

Lemma takeZ_nonneg (n : Z) (l : list RssArticle) :
  0 <= n -> takeZ n l = firstn (Z.to_nat n) l.
Proof. intros Hn. unfold takeZ. apply Z.leb_le in Hn. now rewrite Hn. Qed.

Lemma takeZ_In (n : Z) (l : list RssArticle) (a : RssArticle) :
  In a (takeZ n l) -> In a l.
Proof.
  unfold takeZ. destruct (0 <=? n); intros Hin.
  - rewrite <- (firstn_skipn (Z.to_nat n) l). apply in_or_app. now left.
  - rewrite <- (firstn_skipn (List.length l - Z.to_nat (- n)) l).
    apply in_or_app. now right.
Qed.

Lemma takeZ_all (n : Z) (l : list RssArticle) :
  (List.length l <= Z.to_nat (Z.abs n))%nat -> takeZ n l = l.
Proof.
  unfold takeZ. intros Hlen. destruct (0 <=? n) eqn:Hsign.
  - apply Z.leb_le in Hsign. rewrite Z.abs_eq in Hlen by assumption.
    now apply firstn_all2.
  - apply Z.leb_gt in Hsign. rewrite Z.abs_neq in Hlen by lia.
    replace (List.length l - Z.to_nat (- n))%nat with 0%nat by lia. reflexivity.
Qed.

Lemma takeZ_length (n : Z) (l : list RssArticle) :
  List.length (takeZ n l) = Nat.min (List.length l) (Z.to_nat (Z.abs n)).
Proof.
  unfold takeZ. destruct (0 <=? n) eqn:Hsign.
  - apply Z.leb_le in Hsign. rewrite length_firstn, Z.abs_eq by assumption. lia.
  - apply Z.leb_gt in Hsign. rewrite length_skipn, Z.abs_neq by lia. lia.
Qed.

Lemma takeZ_rest (n : Z) (l : list RssArticle) :
  exists dropped, Permutation (takeZ n l ++ dropped) l.
Proof.
  unfold takeZ. destruct (0 <=? n).
  - exists (skipn (Z.to_nat n) l). now rewrite firstn_skipn.
  - exists (firstn (List.length l - Z.to_nat (- n)) l).
    rewrite Permutation_app_comm. now rewrite firstn_skipn.
Qed.

(* --------------------------------------------------------------------- *)
(** ** [getArticlesByFeedsAndDateRange]                                   *)
(* --------------------------------------------------------------------- *)

Lemma hasSome_exists (column values : list string) :
  hasSome column values = true <-> exists f, In f column /\ In f values.
Proof.
  unfold hasSome. rewrite existsb_exists.
  split; intros [f [Hcol Hval]]; exists f; (split; [assumption|]);
    now apply includes_In.
Qed.

Lemma whereFeedsAndDateRange_spec (feedIds : list string) (startDate endDate : Z)
  (a : RssArticle) :
  whereFeedsAndDateRange feedIds startDate endDate a = true
  <-> selected_spec feedIds startDate endDate a.
Proof.
  unfold whereFeedsAndDateRange, selected_spec.
  rewrite !andb_true_iff, orb_true_iff, includes_In, hasSome_exists, !Z.leb_le.
  tauto.
Qed.

Section Retrieval.
Context {H : ErrorHandler} {P : PrismaHelpers}.

Lemma getArticlesByFeedsAndDateRange_served
  (feedIds : list string) (startDate endDate : Z) (limit : option Z) (w : World) :
  pending w = [] ->
  exists rs,
    getArticlesByFeedsAndDateRange feedIds startDate endDate limit w = (Return rs, w) /\
    map article rs =
      takeZ (nullish limit 100)
        (sortBy ARTICLE_ORDER_BY_DATE_DESC
           (filter (whereFeedsAndDateRange feedIds startDate endDate) (articles w))) /\
    Forall (fun r => sourceCount r = List.length (sourceFeedIds (article r))) rs.
Proof.
  intros Hp. eexists. split; [|split].
  - unfold getArticlesByFeedsAndDateRange, wrapDatabaseOperation, tryCatch, bind,
      prisma.rssArticle.findMany, dbCall. rewrite Hp. reflexivity.
  - rewrite map_map. simpl. apply map_id.
  - apply Forall_forall. intros r Hin. apply in_map_iff in Hin as [a [<- _]]. reflexivity.
Qed.

Lemma getArticlesByFeedsAndDateRange_cut
  (feedIds : list string) (startDate endDate : Z) (limit : option Z)
  (stored : list RssArticle) (rows : list RssArticle) :
  rows = takeZ (nullish limit 100)
           (sortBy ARTICLE_ORDER_BY_DATE_DESC
              (filter (whereFeedsAndDateRange feedIds startDate endDate) stored)) ->
  List.length rows
  = Nat.min
      (List.length (filter (whereFeedsAndDateRange feedIds startDate endDate) stored))
      (Z.to_nat (Z.abs (nullish limit 100))) /\
  exists dropped,
    Permutation (rows ++ dropped)
      (filter (whereFeedsAndDateRange feedIds startDate endDate) stored).
Proof.
  intros ->. split.
  - rewrite takeZ_length. now rewrite (Permutation_length (sortBy_Permutation _ _)).
  - destruct (takeZ_rest (nullish limit 100)
                (sortBy ARTICLE_ORDER_BY_DATE_DESC
                   (filter (whereFeedsAndDateRange feedIds startDate endDate) stored)))
      as [dropped Hsplit].
    exists dropped. rewrite Hsplit. apply sortBy_Permutation.
Qed.

(** C3 (as amended).  In a database that serves its calls, every article
    [getArticlesByFeedsAndDateRange] returns is a stored article whose
    [pubDate] lies in [[startDate, endDate]] and whose [feedId] is among
    [feedIds] or whose [sourceFeedIds] shares an element with [feedIds]; when
    no more such articles are stored than [limit] (100 by default) allows,
    the articles returned are exactly those; and otherwise exactly [limit]
    of them are returned: in every case the number of entries is the smaller
    of the number of such articles and [limit], and the entries together
    with the articles left out are the stored articles that match. *)
Theorem getArticlesByFeedsAndDateRange_window
  (feedIds : list string) (startDate endDate : Z) (limit : option Z) (w : World) :
  pending w = [] ->
  exists rs,
    getArticlesByFeedsAndDateRange feedIds startDate endDate limit w = (Return rs, w) /\
    (forall a, In a (map article rs) ->
       In a (articles w) /\ selected_spec feedIds startDate endDate a) /\
    ((List.length (filter (whereFeedsAndDateRange feedIds startDate endDate) (articles w))
      <= Z.to_nat (Z.abs (nullish limit 100%Z)))%nat ->
     Permutation (map article rs)
       (filter (whereFeedsAndDateRange feedIds startDate endDate) (articles w)) /\
     forall a, In a (map article rs) <->
       In a (articles w) /\ selected_spec feedIds startDate endDate a) /\
    ((Z.to_nat (Z.abs (nullish limit 100%Z))
      < List.length (filter (whereFeedsAndDateRange feedIds startDate endDate)
                       (articles w)))%nat ->
     List.length rs = Z.to_nat (Z.abs (nullish limit 100%Z))) /\
    List.length rs
    = Nat.min
        (List.length (filter (whereFeedsAndDateRange feedIds startDate endDate)
                        (articles w)))
        (Z.to_nat (Z.abs (nullish limit 100%Z))) /\
    (exists dropped,
       Permutation (map article rs ++ dropped)
         (filter (whereFeedsAndDateRange feedIds startDate endDate) (articles w))).
Proof.
  intros Hp.
  destruct (getArticlesByFeedsAndDateRange_served feedIds startDate endDate limit w Hp)
    as [rs [Hrun [Hfound _]]].
  destruct (getArticlesByFeedsAndDateRange_cut feedIds startDate endDate limit
              (articles w) Hfound) as [Hlength Hrest].
  rewrite length_map in Hlength.
  exists rs. split; [exact Hrun|].
  split; [|split; [|split; [|split; [exact Hlength|exact Hrest]]]].
  - rewrite Hfound.
    intros a Hin.
    apply (takeZ_In _ _ _) in Hin.
    apply (Permutation_in _ (sortBy_Permutation ARTICLE_ORDER_BY_DATE_DESC _)) in Hin.
    apply filter_In in Hin as [Hstored Hmatch].
    split; [exact Hstored|now apply whereFeedsAndDateRange_spec].
  - rewrite Hfound.
    set (matching := filter (whereFeedsAndDateRange feedIds startDate endDate)
                       (articles w)).
    assert (Hmatching : forall a, In a matching <->
              In a (articles w) /\ selected_spec feedIds startDate endDate a).
    { intros a. unfold matching. rewrite filter_In, whereFeedsAndDateRange_spec. tauto. }
    intros Hfew. rewrite takeZ_all.
    + split; [apply sortBy_Permutation|].
      intros a. rewrite <- Hmatching. split; apply Permutation_in;
        [|symmetry]; apply sortBy_Permutation.
    + now rewrite (Permutation_length (sortBy_Permutation _ matching)).
  - intros Hmany. rewrite Hlength. lia.
Qed.

(** C8.  In a database that serves its calls and for a [limit] that is not
    negative (100 when none is given), the sequence that
    [getArticlesByFeedsAndDateRange] returns is ordered by [pubDate], most
    recent first; it has at most [limit] entries; a matching stored article
    that is left out is not more recent than any entry; each entry carries
    its stored article together with a [sourceCount] equal to the length of
    that article's [sourceFeedIds]; and nothing is left out without need:
    the number of entries is the smaller of [limit] and the number of
    stored articles that match, and the entries together with the articles
    left out are the stored articles that match. *)
Theorem getArticlesByFeedsAndDateRange_order_limit_count
  (feedIds : list string) (startDate endDate : Z) (limit : option Z) (w : World) :
  pending w = [] ->
  0 <= nullish limit 100 ->
  exists rs,
    getArticlesByFeedsAndDateRange feedIds startDate endDate limit w = (Return rs, w) /\
    StronglySorted (fun x y => pubDate (article y) <= pubDate (article x)) rs /\
    (Z.of_nat (List.length rs) <= nullish limit 100) /\
    (forall a, In a (articles w) ->
       whereFeedsAndDateRange feedIds startDate endDate a = true ->
       ~ In a (map article rs) ->
       forall r, In r rs -> pubDate a <= pubDate (article r)) /\
    Forall (fun r => In (article r) (articles w) /\
                     sourceCount r = List.length (sourceFeedIds (article r))) rs /\
    List.length rs
    = Nat.min
        (List.length (filter (whereFeedsAndDateRange feedIds startDate endDate)
                        (articles w)))
        (Z.to_nat (nullish limit 100)) /\
    (exists dropped,
       Permutation (map article rs ++ dropped)
         (filter (whereFeedsAndDateRange feedIds startDate endDate) (articles w))).
Proof.
  intros Hp Hlimit.
  destruct (getArticlesByFeedsAndDateRange_served feedIds startDate endDate limit w Hp)
    as [rs [Hrun [Hfound Hcount]]].
  destruct (getArticlesByFeedsAndDateRange_cut feedIds startDate endDate limit
              (articles w) Hfound) as [Hlength Hrest].
  rewrite length_map, Z.abs_eq in Hlength by assumption.
  exists rs. split; [exact Hrun|].
  rewrite takeZ_nonneg in Hfound by assumption.
  set (matching := filter (whereFeedsAndDateRange feedIds startDate endDate) (articles w))
    in *.
  set (sorted := sortBy ARTICLE_ORDER_BY_DATE_DESC matching) in *.
  assert (Hsorted : StronglySorted (fun x y => pubDate y <= pubDate x) sorted).
  { pose proof (sortBy_sorted ARTICLE_ORDER_BY_DATE_DESC matching) as Hs.
    eapply StronglySorted_ind with (P := fun l => StronglySorted _ l);
      [constructor| |exact Hs].
    intros a l _ IH Hall. constructor; [exact IH|].
    eapply Forall_impl; [|exact Hall]. intros b Hb.
    unfold inOrder in Hb. simpl in Hb. now apply Z.leb_le. }
  split; [|split; [|split; [|split; [|split; [exact Hlength|exact Hrest]]]]].
  - apply StronglySorted_map with (f := article) (R := fun x y => pubDate y <= pubDate x).
    rewrite Hfound. now apply StronglySorted_firstn.
  - rewrite <- (length_map article rs), Hfound, length_firstn. lia.
  - intros a Hstored Hmatch Hout r Hr.
    assert (Hin : In a sorted).
    { apply (Permutation_in _ (Permutation_sym (sortBy_Permutation _ matching))).
      unfold matching. now apply filter_In. }
    rewrite <- (firstn_skipn (Z.to_nat (nullish limit 100)) sorted) in Hin.
    apply in_app_or in Hin as [Hkept|Hdropped].
    + rewrite Hfound in Hout. contradiction.
    + apply (StronglySorted_split (Z.to_nat (nullish limit 100)) Hsorted
               (article r) a); [|assumption].
      rewrite <- Hfound. now apply in_map.
  - rewrite Forall_forall in *. intros r Hr. split; [|now apply Hcount].
    assert (Hin : In (article r) (map article rs)) by now apply in_map.
    rewrite Hfound in Hin.
    assert (Hin' : In (article r) sorted).
    { rewrite <- (firstn_skipn (Z.to_nat (nullish limit 100)) sorted).
      apply in_or_app. now left. }
    apply (Permutation_in _ (sortBy_Permutation _ matching)) in Hin'.
    unfold matching in Hin'. now apply filter_In in Hin'.
Qed.

End Retrieval.

(** C3, the claim on a collection of 101 matching articles: with the default
    [limit] the oldest of them is stored, lies in the window and belongs to
    the requested feed, and is not returned. *)
Lemma getArticlesByFeedsAndDateRange_drops_match :
  exists rs,
    getArticlesByFeedsAndDateRange (H := rethrowingHandler) (P := feedIdHelpers)
      ["f1"] 0 100 None crowdedWorld = (Return rs, crowdedWorld) /\
    In (dated 0) (articles crowdedWorld) /\
    selected_spec ["f1"] 0 100 (dated 0) /\
    ~ In (dated 0) (map article rs).
Proof.
  destruct (getArticlesByFeedsAndDateRange_served
              (H := rethrowingHandler) (P := feedIdHelpers)
              ["f1"] 0 100 None crowdedWorld eq_refl) as [rs [Hrun [Hfound _]]].
  exists rs. split; [exact Hrun|]. split; [|split].
  - apply (in_map dated (seq 0 101) 0%nat), in_seq. lia.
  - split; [left; now left|simpl; lia].
  - intros Hin. rewrite Hfound in Hin. apply (in_map id) in Hin.
    assert (Hex : existsb (Nat.eqb (id (dated 0)))
                    (map id (takeZ (nullish None 100)
                       (sortBy ARTICLE_ORDER_BY_DATE_DESC
                          (filter (whereFeedsAndDateRange ["f1"] 0 100)
                             (articles crowdedWorld))))) = true).
    { apply existsb_exists. eexists. split; [exact Hin|apply Nat.eqb_refl]. }
    vm_compute in Hex. discriminate.
Qed.

(* --------------------------------------------------------------------- *)
(** ** [NewsletterSchema] and saving                                      *)
(* --------------------------------------------------------------------- *)

Lemma parseAll_strings (l : list string) :
  z.parseAll z.string (map JsString l) = Some (map JsString l).
Proof. induction l as [|s l IH]; simpl; [reflexivity|now rewrite IH]. Qed.

Lemma fixedLength_strings (k : nat) (l : list string) :
  z.length k (z.array z.string) (JsArray (map JsString l))
  = if Nat.eqb (List.length l) k then Some (JsArray (map JsString l)) else None.
Proof.
  unfold z.length, z.array. rewrite parseAll_strings. simpl.
  now rewrite length_map.
Qed.

Lemma NewsletterSchema_newsletterObject (n : GeneratedNewsletter) :
  NewsletterSchema (newsletterObject n)
  = if fiveOfEach n then Some (newsletterObject n) else None.
Proof.
  unfold NewsletterSchema, newsletterObject, fiveOfEach, z.object.
  remember (z.length 5 (z.array z.string)) as five eqn:Hfive.
  destruct n as [titles subjects text announcements info]; simpl.
  subst five. rewrite !fixedLength_strings.
  destruct (Nat.eqb (List.length titles) 5),
           (Nat.eqb (List.length subjects) 5),
           (Nat.eqb (List.length announcements) 5), info; reflexivity.
Qed.

(** C7.  Saving a newsletter whose [suggestedTitles], [suggestedSubjectLines]
    and [topAnnouncements] have five elements each succeeds and stores the
    request as it was given; saving one in which any of the three has
    another length fails with [ValidationError] and stores nothing - the
    arrays are neither cut nor filled up. *)
Theorem saveGeneratedNewsletter_shape
  (n : GeneratedNewsletter) (feeds : list string) (from to : Z)
  (input : option string) (saved : list SaveRequest) :
  (List.length (suggestedTitles n) = 5%nat /\
   List.length (suggestedSubjectLines n) = 5%nat /\
   List.length (topAnnouncements n) = 5%nat ->
   saveGeneratedNewsletter (saveRequest n feeds from to input) saved
   = (Return tt, saved ++ [saveRequest n feeds from to input])) /\
  (List.length (suggestedTitles n) <> 5%nat \/
   List.length (suggestedSubjectLines n) <> 5%nat \/
   List.length (topAnnouncements n) <> 5%nat ->
   saveGeneratedNewsletter (saveRequest n feeds from to input) saved
   = (Throw ValidationError, saved)).
Proof.
  unfold saveGeneratedNewsletter, saveRequest. cbn [newsletter].
  rewrite NewsletterSchema_newsletterObject. unfold fiveOfEach. split.
  - intros [-> [-> ->]]. reflexivity.
  - intros Hbad.
    destruct (Nat.eqb_spec (List.length (suggestedTitles n)) 5);
    destruct (Nat.eqb_spec (List.length (suggestedSubjectLines n)) 5);
    destruct (Nat.eqb_spec (List.length (topAnnouncements n)) 5);
      try reflexivity.
    exfalso. tauto.
Qed.

Lemma saveGeneratedNewsletter_shape_witness :
  saveGeneratedNewsletter (saveRequest (draft 4) ["f1"] 0 100 None) []
    = (Throw ValidationError, []) /\
  saveGeneratedNewsletter (saveRequest (draft 5) ["f1"] 0 100 None) []
    = (Return tt, [saveRequest (draft 5) ["f1"] 0 100 None]).
Proof.
  split.
  - apply (proj2 (saveGeneratedNewsletter_shape (draft 4) ["f1"] 0 100 None [])).
    left. simpl. lia.
  - apply (proj1 (saveGeneratedNewsletter_shape (draft 5) ["f1"] 0 100 None [])).
    repeat split.
Defined.

(* --------------------------------------------------------------------- *)
(** ** Two calls racing on one stored article                             *)
(* --------------------------------------------------------------------- *)

Section Race.
Context {H : ErrorHandler}.

(** The steps of a task are the awaits of [createRssArticle]: run one after
    the other without interruption they are the call. *)
Lemma stepTask_twice (data : ArticleCreateData.t) (other : Task) (w : World) :
  interleave [true; true] (Started data) other w
  = (Settled (fst (createRssArticle data w)), other, snd (createRssArticle data w)).
Proof.
  unfold createRssArticle, wrapDatabaseOperation, tryCatch, bind. simpl.
  destruct (prisma.rssArticle.findUnique (ArticleCreateData.guid data) w)
    as [[existing|e] w1]; simpl; [|reflexivity].
  destruct (createOrMerge data existing w1) as [[r|e] w2]; reflexivity.
Qed.

Variables (g fa fb : string) (initial : list string).
Hypothesis distinct : fa <> fb.

Lemma raceTask_other_push (f f' : string) (a : RssArticle) (t : Task) :
  f' <> f ->
  raceTask g f' initial a t ->
  raceTask g f' initial (withSourceFeedIds (sourceFeedIds a ++ [f]) a) t.
Proof.
  intros Hne. destruct t as [data|data existing|outcome]; simpl.
  - intros [Hg [Hf Hback]]. repeat split; try assumption.
    intros Hin. apply in_app_or in Hin as [Hin|[Heq|[]]]; [now apply Hback|congruence].
  - intros [Hg [Hf [e [He Hiff]]]]. repeat split; try assumption.
    exists e. split; [assumption|]. rewrite Hiff, in_app_iff. simpl.
    split; [tauto|]. intros [Hin|[Heq|[]]]; [assumption|congruence].
  - intros [Hret Hin]. split; [assumption|]. apply in_or_app. now left.
Qed.

(** One step of the call that adds [f] keeps what holds of the store, of
    the call and of the other call. *)
Lemma stepTask_race (f f' : string) (w : World) (a : RssArticle) (t t' : Task) :
  (f = fa \/ f = fb) -> f' <> f ->
  raceStore g fa fb initial w a ->
  raceTask g f initial a t ->
  raceTask g f' initial a t' ->
  exists a2,
    raceStore g fa fb initial (snd (stepTask t w)) a2 /\
    raceTask g f initial a2 (fst (stepTask t w)) /\
    raceTask g f' initial a2 t'.
Proof.
  intros Hf Hne Hstore Ht Ht'.
  pose proof Hstore as [Hfind [Hp [Hnodup [Hsub Hkeep]]]].
  destruct t as [data|data existing|outcome].
  - destruct Ht as [Hg [Hfeed Hback]].
    exists a. unfold stepTask, prisma.rssArticle.findUnique, dbCall.
    rewrite Hp, Hg, Hfind. simpl.
    split; [exact Hstore|]. split; [|exact Ht'].
    split; [exact Hg|]. split; [exact Hfeed|].
    exists a. split; [reflexivity|tauto].
  - destruct Ht as [Hg [Hfeed [e [-> Hiff]]]]. unfold stepTask, createOrMerge.
    rewrite Hg, Hfeed.
    destruct (includes (sourceFeedIds e) f) eqn:Hinc; simpl.
    + exists a. unfold prisma.rssArticle.findUnique, dbCall.
      rewrite Hp, Hfind. simpl.
      split; [exact Hstore|]. split; [|exact Ht'].
      split; [now exists (Some a)|]. apply Hiff. now apply includes_In.
    + assert (Hfresh : ~ In f (sourceFeedIds a)).
      { rewrite <- Hiff, <- includes_In, Hinc. discriminate. }
      exists (withSourceFeedIds (sourceFeedIds a ++ [f]) a).
      unfold bind, prisma.rssArticle.update, dbCall. rewrite Hp, Hfind. simpl.
      split; [|split].
      * unfold raceStore. simpl.
        split; [now apply byGuid_push|]. split; [exact Hp|]. split; [|split].
        -- apply NoDup_app; [assumption|repeat constructor; intros []|].
           intros x Hx [<-|[]]. contradiction.
        -- intros x Hx. apply in_app_or in Hx as [Hx|[<-|[]]]; [now apply Hsub|].
           destruct Hf; subst; tauto.
        -- intros x Hx. apply in_or_app. left. now apply Hkeep.
      * split; [now eexists|]. simpl. apply in_or_app. right. now left.
      * now apply raceTask_other_push.
  - exists a. simpl. split; [exact Hstore|]. split; [exact Ht|exact Ht'].
Qed.

Lemma interleave_race (schedule : list bool) :
  forall (t1 t2 : Task) (w : World) (a : RssArticle),
  raceStore g fa fb initial w a ->
  raceTask g fa initial a t1 ->
  raceTask g fb initial a t2 ->
  exists a',
    raceStore g fa fb initial (snd (interleave schedule t1 t2 w)) a' /\
    raceTask g fa initial a' (fst (fst (interleave schedule t1 t2 w))) /\
    raceTask g fb initial a' (snd (fst (interleave schedule t1 t2 w))).
Proof.
  induction schedule as [|turn rest IH]; intros t1 t2 w a Hstore H1 H2.
  - exists a. simpl. split; [exact Hstore|]. split; [exact H1|exact H2].
  - destruct turn; simpl.
    + destruct (@stepTask_race fa fb w a t1 t2) as [a2 [Hstore2 [H1' H2']]];
        auto.
      destruct (stepTask t1 w) as [t1' w']. now apply IH with (a := a2).
    + destruct (@stepTask_race fb fa w a t2 t1) as [a2 [Hstore2 [H2' H1']]];
        auto.
      destruct (stepTask t2 w) as [t2' w']. now apply IH with (a := a2).
Qed.

End Race.

Section Progress.
Context {H : ErrorHandler}.

Lemma settle_awaitsLeft (r : Completion (option RssArticle) JsError * World) :
  awaitsLeft (fst (settle r)) = 0%nat.
Proof. destruct r as [[a|e] w]; reflexivity. Qed.

Lemma stepTask_awaitsLeft (t : Task) (w : World) :
  (awaitsLeft (fst (stepTask t w)) <= pred (awaitsLeft t))%nat.
Proof.
  destruct t as [data|data existing|outcome]; simpl.
  - destruct (prisma.rssArticle.findUnique (ArticleCreateData.guid data) w)
      as [[existing|e] w1]; simpl; lia.
  - now rewrite settle_awaitsLeft.
  - lia.
Qed.

Lemma interleave_awaitsLeft (schedule : list bool) :
  forall (t1 t2 : Task) (w : World),
  (awaitsLeft (fst (fst (interleave schedule t1 t2 w)))
     <= awaitsLeft t1 - turns true schedule)%nat /\
  (awaitsLeft (snd (fst (interleave schedule t1 t2 w)))
     <= awaitsLeft t2 - turns false schedule)%nat.
Proof.
  unfold turns.
  induction schedule as [|turn rest IH]; intros t1 t2 w; [simpl; lia|].
  destruct turn; simpl.
  - pose proof (stepTask_awaitsLeft t1 w) as Hstep.
    destruct (stepTask t1 w) as [t1' w']. simpl in Hstep.
    destruct (IH t1' t2 w') as [IH1 IH2]. lia.
  - pose proof (stepTask_awaitsLeft t2 w) as Hstep.
    destruct (stepTask t2 w) as [t2' w']. simpl in Hstep.
    destruct (IH t1 t2' w') as [IH1 IH2]. lia.
Qed.

Lemma awaitsLeft_0 (t : Task) :
  awaitsLeft t = 0%nat -> exists outcome, t = Settled outcome.
Proof. destruct t; try discriminate. eauto. Qed.

(** C9.  Two calls of [createRssArticle] for a stored guid, with different
    feeds, under any schedule of their awaits, in a database that serves its
    calls and in which the stored [sourceFeedIds] has no duplicate: at every
    point of the schedule the stored [sourceFeedIds] is free of duplicates,
    keeps every feed it had and holds nothing but these and the two new
    feeds; and a call that has had its two turns has returned, with its feed
    in the stored [sourceFeedIds] - so once both are through, neither feed
    is missing. *)
Theorem createRssArticle_concurrent_merge
  (w : World) (stored : RssArticle) (one other : ArticleCreateData.t)
  (schedule : list bool) :
  pending w = [] ->
  byGuid (ArticleCreateData.guid one) (articles w) = Some stored ->
  ArticleCreateData.guid other = ArticleCreateData.guid one ->
  ArticleCreateData.feedId one <> ArticleCreateData.feedId other ->
  NoDup (sourceFeedIds stored) ->
  exists a,
    byGuid (ArticleCreateData.guid one)
      (articles (snd (interleave schedule (Started one) (Started other) w))) = Some a /\
    NoDup (sourceFeedIds a) /\
    (forall x, In x (sourceFeedIds stored) -> In x (sourceFeedIds a)) /\
    (forall x, In x (sourceFeedIds a) ->
       In x (sourceFeedIds stored) \/
       x = ArticleCreateData.feedId one \/ x = ArticleCreateData.feedId other) /\
    ((2 <= turns true schedule)%nat ->
       (exists r, fst (fst (interleave schedule (Started one) (Started other) w))
                  = Settled (Return r)) /\
       In (ArticleCreateData.feedId one) (sourceFeedIds a)) /\
    ((2 <= turns false schedule)%nat ->
       (exists r, snd (fst (interleave schedule (Started one) (Started other) w))
                  = Settled (Return r)) /\
       In (ArticleCreateData.feedId other) (sourceFeedIds a)).
Proof.
  intros Hp Hfind Hguid Hfeeds Hnodup.
  destruct (@interleave_race H (ArticleCreateData.guid one)
              (ArticleCreateData.feedId one) (ArticleCreateData.feedId other)
              (sourceFeedIds stored) Hfeeds schedule
              (Started one) (Started other) w stored)
    as [a [[Hfound [_ [Hnd [Hsub Hkeep]]]] [H1 H2]]].
  - unfold raceStore. repeat split; auto.
  - simpl. auto.
  - simpl. auto.
  - destruct (interleave_awaitsLeft schedule (Started one) (Started other) w)
      as [Hleft1 Hleft2].
    change (awaitsLeft (Started one)) with 2%nat in Hleft1.
    change (awaitsLeft (Started other)) with 2%nat in Hleft2.
    exists a. split; [exact Hfound|]. split; [exact Hnd|].
    split; [exact Hkeep|]. split; [exact Hsub|]. split; intros Hturns.
    + destruct (awaitsLeft_0 (fst (fst (interleave schedule (Started one)
                                          (Started other) w)))) as [outcome Hout];
        [lia|].
      rewrite Hout in *. destruct H1 as [[r ->] Hin]. split; [now exists r|exact Hin].
    + destruct (awaitsLeft_0 (snd (fst (interleave schedule (Started one)
                                          (Started other) w)))) as [outcome Hout];
        [lia|].
      rewrite Hout in *. destruct H2 as [[r ->] Hin]. split; [now exists r|exact Hin].
Qed.

End Progress.

(* --------------------------------------------------------------------- *)
(** ** The properties on the sample data                                  *)
(* --------------------------------------------------------------------- *)



Lemma getArticlesByFeedsAndDateRange_window_witness :
  exists rs,
    getArticlesByFeedsAndDateRange (H := rethrowingHandler) (P := feedIdHelpers)
      ["f1"] 0 2000 None storedTwice = (Return rs, storedTwice) /\
    Permutation (map article rs) (articles storedTwice) /\
    List.length rs = 1%nat.
Proof.
  destruct (getArticlesByFeedsAndDateRange_window
              (H := rethrowingHandler) (P := feedIdHelpers)
              ["f1"] 0 2000 None storedTwice eq_refl)
    as [rs [Hrun [_ [Hexact [_ [Hlength _]]]]]].
  exists rs. split; [exact Hrun|]. split.
  - apply Hexact. simpl. lia.
  - exact Hlength.
Defined.

Lemma getArticlesByFeedsAndDateRange_order_limit_count_witness :
  exists rs,
    getArticlesByFeedsAndDateRange (H := rethrowingHandler) (P := feedIdHelpers)
      ["f1"] 0 2000 None storedTwice = (Return rs, storedTwice) /\
    (Z.of_nat (List.length rs) <= 100) /\
    Forall (fun r => In (article r) (articles storedTwice) /\
                     sourceCount r = List.length (sourceFeedIds (article r))) rs /\
    List.length rs = 1%nat.
Proof.
  destruct (getArticlesByFeedsAndDateRange_order_limit_count
              (H := rethrowingHandler) (P := feedIdHelpers)
              ["f1"] 0 2000 None storedTwice eq_refl)
    as [rs [Hrun [_ [Hlen [_ [Hcount [Hlength _]]]]]]]; [simpl; lia|].
  exists rs. repeat split; assumption.
Defined.



Lemma createRssArticle_concurrent_merge_witness :
  exists a,
    byGuid "abc"
      (articles (snd (interleave (H := rethrowingHandler) [true; false; true; false]
                        (Started seenAgain) (Started seenThird) storedOnce))) = Some a /\
    NoDup (sourceFeedIds a) /\
    In "f1" (sourceFeedIds a) /\ In "f2" (sourceFeedIds a) /\ In "f3" (sourceFeedIds a).
Proof.
  destruct (createRssArticle_concurrent_merge (H := rethrowingHandler)
              storedOnce (stored := newArticle firstSeen None 0)
              seenAgain seenThird [true; false; true; false])
    as [a [Hfound [Hnodup [Hkeep [_ [Hone Hother]]]]]].
  - reflexivity.
  - reflexivity.
  - reflexivity.
  - discriminate.
  - simpl. repeat constructor; intros [].
  - exists a. split; [exact Hfound|]. split; [exact Hnodup|]. split; [|split].
    + apply Hkeep. simpl. now left.
    + apply Hone. unfold turns. simpl. lia.
    + apply Hother. unfold turns. simpl. lia.
Defined.

(** The check of [createRssArticle] and its [push] are two calls to the
    database.  Two racing calls for the same feed can both pass the check:
    the feed is then stored twice. *)
Example createRssArticle_same_feed_race :
  map sourceFeedIds
    (articles (snd (interleave (H := rethrowingHandler) [true; false; true; false]
                      (Started seenAgain) (Started seenAgain) storedOnce)))
  = [["f1"; "f2"; "f2"]].
Proof. reflexivity. Qed.

(** Two racing calls for a guid that is not stored yet: both find nothing,
    one creates the article, the other is answered with [P2002]; in a batch
    this second candidate is counted in [skipped]. *)
Example createRssArticle_create_race :
  exists made message w,
    interleave (H := rethrowingHandler) [true; false; true; false]
      (Started firstSeen) (Started seenAgain) emptyWorld
    = (Settled (Return (Some made)),
       Settled (Throw (PrismaClientKnownRequestError "P2002" message)), w) /\
    map sourceFeedIds (articles w) = [["f1"]].
Proof. do 3 eexists. split; reflexivity. Qed.

(* --------------------------------------------------------------------- *)
(** ** The example scenarios of section 8                                 *)
(* --------------------------------------------------------------------- *)

(** Candidate [{guid: "abc", feedId: "f1", title: "X"}], then candidate
    [{guid: "abc", feedId: "f2", title: "Y"}]: one stored article, titled
    ["X"], observed through [f1] and [f2]. *)
Example scenario_two_observations :
  map (fun a => (guid a, title a, sourceFeedIds a))
    (articles (snd (bulkCreateRssArticles (H := rethrowingHandler)
                      [firstSeen; seenAgain] emptyWorld)))
  = [("abc", "X", ["f1"; "f2"])].
Proof. reflexivity. Qed.

(** Retrieval for feed [f1] around the publication date then returns that
    article with a [sourceCount] of 2. *)
Example scenario_retrieval :
  exists rs,
    getArticlesByFeedsAndDateRange (H := rethrowingHandler) (P := feedIdHelpers)
      ["f1"] 0 2000 None storedTwice = (Return rs, storedTwice) /\
    map (fun r => (guid (article r), sourceCount r)) rs = [("abc", 2%nat)].
Proof. eexists. split; reflexivity. Qed.

(** The other two inputs on which [getAuthorString] leaves section 4.1. *)
Example getAuthorString_empty_name :
  getAuthorString (JsObject [("name", JsString "")]) = Return None.
Proof. reflexivity. Qed.

Example getAuthorString_mixed_names :
  getAuthorString (JsObject [("name", JsArray [JsString "Ada"; JsNull; JsNumber 7])])
  = Return (Some "Ada, , 7").
Proof. reflexivity. Qed.

(* ===================================================================== *)
(** * Further properties of the actions                                   *)
(* ===================================================================== *)

(* --------------------------------------------------------------------- *)
(** ** What a call of [createRssArticle] does to the collection           *)
(* --------------------------------------------------------------------- *)

Section CreateEffect.
Context {H : ErrorHandler}.

Lemma createRssArticle_effect (data : ArticleCreateData.t) (w : World) :
  Effect data w (snd (createRssArticle data w)) /\
  console (snd (createRssArticle data w)) = console w.
Proof.
  destruct (getAuthorString_returns (ArticleCreateData.author data)) as [name Hname].
  unfold createRssArticle, wrapDatabaseOperation, tryCatch, bind,
    prisma.rssArticle.findUnique, dbCall.
  destruct w as [arts next pend cons]. simpl.
  destruct pend as [|[e|] rest]; simpl.
  - (* both calls are served *)
    destruct (byGuid (ArticleCreateData.guid data) arts) as [a|] eqn:Hfind; simpl.
    + destruct (includes (sourceFeedIds a) (ArticleCreateData.feedId data)) eqn:Hinc;
        simpl.
      * unfold prisma.rssArticle.findUnique, dbCall. simpl.
        split; [now apply Untouched|reflexivity].
      * unfold bind, prisma.rssArticle.update, dbCall. simpl. rewrite Hfind. simpl.
        split; [now apply Merged with (a := a)|reflexivity].
    + unfold bind, liftJs. rewrite Hname.
      unfold prisma.rssArticle.create, dbCall. simpl. rewrite Hfind. simpl.
      split; [now apply Created with (name := name)|reflexivity].
  - (* [findUnique] fails *)
    split; [now apply Untouched|reflexivity].
  - (* [findUnique] is served *)
    destruct (byGuid (ArticleCreateData.guid data) arts) as [a|] eqn:Hfind; simpl.
    + destruct (includes (sourceFeedIds a) (ArticleCreateData.feedId data)) eqn:Hinc;
        simpl.
      * unfold prisma.rssArticle.findUnique, dbCall. simpl.
        destruct rest as [|[e|] rest]; simpl;
          (split; [now apply Untouched|reflexivity]).
      * unfold bind, prisma.rssArticle.update, dbCall. simpl.
        destruct rest as [|[e|] rest]; simpl; try rewrite Hfind; simpl;
          (split; [(now apply Untouched) || (now apply Merged with (a := a))
                  |reflexivity]).
    + unfold bind, liftJs. rewrite Hname.
      unfold prisma.rssArticle.create, dbCall. simpl.
      destruct rest as [|[e|] rest]; simpl; try rewrite Hfind; simpl;
        (split; [(now apply Untouched) || (now apply Created with (name := name))
                |reflexivity]).
Qed.

End CreateEffect.

Lemma pushSourceFeedId_split (g f : string) (l : list RssArticle) (a : RssArticle) :
  byGuid g l = Some a ->
  exists l1 l2,
    l = l1 ++ a :: l2 /\
    pushSourceFeedId g f l = l1 ++ withSourceFeedIds (sourceFeedIds a ++ [f]) a :: l2.
Proof.
  unfold byGuid. induction l as [|b l IH]; simpl; [discriminate|].
  destruct (String.eqb (guid b) g) eqn:Heq.
  - intros [= ->]. now exists [], l.
  - intros Hfind. destruct (IH Hfind) as [l1 [l2 [-> Hpush]]].
    exists (b :: l1), l2. simpl. now rewrite Hpush.
Qed.


Lemma byGuid_app_other (g : string) (l : list RssArticle) (a : RssArticle) :
  guid a <> g -> byGuid g (l ++ [a]) = byGuid g l.
Proof.
  unfold byGuid. intros Hne. induction l as [|b l IH]; simpl.
  - apply String.eqb_neq in Hne. now rewrite Hne.
  - now rewrite IH.
Qed.

Lemma byGuid_None_guids (g : string) (l : list RssArticle) :
  byGuid g l = None -> ~ In g (map guid l).
Proof.
  intros Hnone Hin. apply in_map_iff in Hin as [a [Hg Ha]].
  now apply (proj1 (byGuid_None g l) Hnone a).
Qed.

Lemma grownFrom_refl (a : RssArticle) : grownFrom a a.
Proof. exists []. rewrite app_nil_r. now destruct a. Qed.

Lemma Forall2_grownFrom_refl (l : list RssArticle) : Forall2 grownFrom l l.
Proof. induction l; constructor; [apply grownFrom_refl|assumption]. Qed.


Lemma storeOk_same (w w' : World) :
  articles w' = articles w -> nextId w' = nextId w -> storeOk w -> storeOk w'.
Proof. unfold storeOk. now intros -> ->. Qed.

Section CreateInvariants.
Context {H : ErrorHandler}.

Lemma Effect_keeps_storeOk (data : ArticleCreateData.t) (w w' : World) :
  Effect data w w' -> storeOk w -> storeOk w'.
Proof.
  intros Heffect Hok.
  destruct Heffect as [Harts Hnext|name Hnone Hname Harts Hnext|a Hfind Hinc Harts Hnext].
  - now apply storeOk_same with (w := w).
  - destruct Hok as [Hguids [Hids [Hbelow Hart]]]. unfold storeOk.
    rewrite Harts, Hnext, !map_app. simpl. split; [|split; [|split]].
    + apply NoDup_app; [assumption|repeat constructor; intros []|].
      intros g Hg [<-|[]]. now apply (byGuid_None_guids _ _ Hnone).
    + apply NoDup_app; [assumption|repeat constructor; intros []|].
      intros i Hi [<-|[]]. apply in_map_iff in Hi as [b [Hb Hin]].
      rewrite Forall_forall in Hbelow. specialize (Hbelow b Hin). lia.
    + apply Forall_app. split.
      * eapply Forall_impl; [|exact Hbelow]. simpl. intros b Hb. lia.
      * repeat constructor.
    + apply Forall_app. split; [assumption|].
      repeat constructor; simpl; auto.
  - destruct (@pushSourceFeedId_split _ (ArticleCreateData.feedId data) _ _ Hfind)
      as [l1 [l2 [Hl Hpush]]].
    destruct Hok as [Hguids [Hids [Hbelow Hart]]]. unfold storeOk.
    rewrite Harts, Hnext, Hpush. rewrite Hl in Hguids, Hids, Hbelow, Hart.
    rewrite !map_app in *. simpl in *. split; [|split; [|split]]; try assumption.
    + apply Forall_app in Hbelow as [Hb1 Hb2]. apply Forall_app. split; [assumption|].
      apply Forall_cons_iff in Hb2 as [Ha Hb2]. now constructor.
    + apply Forall_app in Hart as [Ha1 Ha2]. apply Forall_app. split; [assumption|].
      apply Forall_cons_iff in Ha2 as [[Hnd Hprim] Ha2]. constructor; [|assumption].
      split; simpl.
      * apply NoDup_app; [assumption|repeat constructor; intros []|].
        intros x Hx [<-|[]].
        apply includes_In in Hx. congruence.
      * apply in_or_app. now left.
Qed.

(** X1.  Whatever the database does with the calls, a call of
    [createRssArticle] keeps the collection in order: each guid and each id
    stored once, ids handed out by the store, no article listing a feed
    twice, each listing its primary feed. *)
Theorem createRssArticle_keeps_storeOk (data : ArticleCreateData.t) (w : World) :
  storeOk w -> storeOk (snd (createRssArticle data w)).
Proof.
  intros Hok. destruct (createRssArticle_effect data w) as [Heffect _].
  exact (Effect_keeps_storeOk Heffect Hok).
Qed.

End CreateInvariants.

Section CreateFrame.
Context {H : ErrorHandler}.

(** X3.  Whatever the database does with the calls, [createRssArticle]
    removes and reorders nothing: the collection after the call is the
    collection before it, article by article the same but for source feeds
    added at the end of [sourceFeedIds], followed by at most one new
    article. *)
Theorem createRssArticle_only_grows (data : ArticleCreateData.t) (w : World) :
  exists kept added,
    articles (snd (createRssArticle data w)) = kept ++ added /\
    Forall2 grownFrom (articles w) kept /\
    (List.length added <= 1)%nat.
Proof.
  destruct (createRssArticle_effect data w) as [Heffect _].
  destruct Heffect as [Harts Hnext|name Hnone Hname Harts Hnext|a Hfind Hinc Harts Hnext].
  - exists (articles w), []. rewrite Harts, app_nil_r.
    split; [reflexivity|]. split; [apply Forall2_grownFrom_refl|simpl; lia].
  - exists (articles w), [newArticle data name (nextId w)].
    split; [exact Harts|]. split; [apply Forall2_grownFrom_refl|simpl; lia].
  - destruct (@pushSourceFeedId_split _ (ArticleCreateData.feedId data) _ _ Hfind)
      as [l1 [l2 [Hl Hpush]]].
    exists (pushSourceFeedId (ArticleCreateData.guid data)
              (ArticleCreateData.feedId data) (articles w)), [].
    rewrite Harts, app_nil_r. split; [reflexivity|]. split; [|simpl; lia].
    rewrite Hpush. rewrite Hl at 1.
    apply Forall2_app; [apply Forall2_grownFrom_refl|].
    constructor; [now eexists|apply Forall2_grownFrom_refl].
Qed.

(** X4.  Whatever the database does with the calls, [createRssArticle]
    leaves the articles of every other guid as they are. *)
Theorem createRssArticle_other_guids (data : ArticleCreateData.t) (w : World)
  (g : string) :
  g <> ArticleCreateData.guid data ->
  byGuid g (articles (snd (createRssArticle data w))) = byGuid g (articles w).
Proof.
  intros Hne. destruct (createRssArticle_effect data w) as [Heffect _].
  destruct Heffect as [Harts Hnext|name Hnone Hname Harts Hnext|a Hfind Hinc Harts Hnext];
    rewrite Harts.
  - reflexivity.
  - apply byGuid_app_other. simpl. congruence.
  - now apply byGuid_push_other.
Qed.






End CreateFrame.

(* --------------------------------------------------------------------- *)
(** ** Batches                                                            *)
(* --------------------------------------------------------------------- *)

Section BulkMore.
Context {H : ErrorHandler}.

(** One turn of the loop: the collection is what [createRssArticle] left,
    and the console has one more line exactly when the turn counted an
    error. *)
Lemma ingestCandidate_world (article : ArticleCreateData.t)
  (results : BulkOperationResult) (w : World) :
  exists r w',
    ingestCandidate article results w = (Return r, w') /\
    articles w' = articles (snd (createRssArticle article w)) /\
    nextId w' = nextId (snd (createRssArticle article w)) /\
    pending w' = pending (snd (createRssArticle article w)) /\
    (List.length (console w') + errors results
     = List.length (console w) + errors r)%nat.
Proof.
  destruct (createRssArticle_effect article w) as [_ Hconsole].
  destruct (createRssArticle article w) as [[x|e] w1] eqn:Hcall; simpl in *.
  - eexists _, _. split; [eapply ingestCandidate_created; exact Hcall|].
    simpl. rewrite Hconsole. repeat split; lia.
  - destruct (isDuplicateKey e) eqn:Hdup.
    + eexists _, _. split; [eapply ingestCandidate_skipped; eassumption|].
      simpl. rewrite Hconsole. repeat split; lia.
    + eexists _, _. split; [eapply ingestCandidate_error; eassumption|].
      simpl. rewrite length_app, Hconsole. simpl. repeat split; lia.
Qed.


(** X8.  Whatever the database does with the calls, a batch keeps the
    collection in order ([storeOk]): in particular no guid is ever stored
    twice, however often the batch repeats it. *)
Theorem bulkCreateRssArticles_keeps_storeOk
  (candidates : list ArticleCreateData.t) (w : World) :
  storeOk w -> storeOk (snd (bulkCreateRssArticles candidates w)).
Proof.
  unfold bulkCreateRssArticles.
  generalize {| created := 0; skipped := 0; errors := 0 |}. revert w.
  induction candidates as [|article rest IH]; intros w r Hok; [exact Hok|].
  destruct (ingestCandidate_world article r w) as [r1 [w1 [Hone [Harts [Hnext _]]]]].
  erewrite forEachArticle_cons by exact Hone.
  apply IH. eapply storeOk_same; [exact Harts|exact Hnext|].
  destruct (createRssArticle_effect article w) as [Heffect _].
  exact (Effect_keeps_storeOk Heffect Hok).
Qed.

Lemma forEachArticle_from (candidates : list ArticleCreateData.t) :
  forall (r0 : BulkOperationResult) (w : World),
  exists r w',
    forEachArticle candidates {| created := 0; skipped := 0; errors := 0 |} w
      = (Return r, w') /\
    forEachArticle candidates r0 w = (Return (addResults r0 r), w').
Proof.
  assert (Hgen : forall l r1 r2 w,
            exists r w', forEachArticle l r2 w = (Return r, w') /\
                         forEachArticle l (addResults r1 r2) w
                         = (Return (addResults r1 r), w')).
  { induction l as [|article rest IH]; intros r1 r2 w.
    - exists r2, w. now split.
    - destruct (createRssArticle article w) as [[x|e] w1] eqn:Hcall.
      + destruct (IH r1 (countCreated r2) w1) as [r [w' [Hrun Hsum]]].
        exists r, w'.
        do 2 (erewrite forEachArticle_cons
                by (eapply ingestCandidate_created; exact Hcall)).
        split; [exact Hrun|]. rewrite <- Hsum. f_equal.
        unfold countCreated, addResults. simpl. f_equal. lia.
      + destruct (isDuplicateKey e) eqn:Hdup.
        * destruct (IH r1 (countSkipped r2) w1) as [r [w' [Hrun Hsum]]].
          exists r, w'.
          do 2 (erewrite forEachArticle_cons
                  by (eapply ingestCandidate_skipped; eassumption)).
          split; [exact Hrun|]. rewrite <- Hsum. f_equal.
          unfold countSkipped, addResults. simpl. f_equal. lia.
        * destruct (IH r1 (countError r2) (logged article e w1))
            as [r [w' [Hrun Hsum]]].
          exists r, w'.
          do 2 (erewrite forEachArticle_cons
                  by (eapply ingestCandidate_error; eassumption)).
          split; [exact Hrun|]. rewrite <- Hsum. f_equal.
          unfold countError, addResults. simpl. f_equal. lia. }
  intros r0 w.
  destruct (Hgen candidates r0 {| created := 0; skipped := 0; errors := 0 |} w)
    as [r [w' [Hrun Hsum]]].
  exists r, w'. split; [exact Hrun|].
  replace (addResults r0 {| created := 0; skipped := 0; errors := 0 |}) with r0 in Hsum;
    [exact Hsum|].
  destruct r0. unfold addResults. simpl. f_equal; lia.
Qed.

(** X10.  Whatever the database does with the calls, ingesting one batch
    and then a second is ingesting their concatenation: the database ends
    up the same and the counters of the concatenation are the sums of the
    counters of the two. *)
Theorem bulkCreateRssArticles_app
  (first second : list ArticleCreateData.t) (w : World) :
  exists r1 w1 r2 w2,
    bulkCreateRssArticles first w = (Return r1, w1) /\
    bulkCreateRssArticles second w1 = (Return r2, w2) /\
    bulkCreateRssArticles (first ++ second) w = (Return (addResults r1 r2), w2).
Proof.
  unfold bulkCreateRssArticles.
  generalize {| created := 0; skipped := 0; errors := 0 |} at 1 3.
  revert w. induction first as [|article rest IH]; intros w r0.
  - destruct (forEachArticle_from second r0 w) as [r2 [w2 [Hrun Hsum]]].
    exists r0, w, r2, w2. simpl. now repeat split.
  - destruct (ingestCandidate_world article r0 w) as [ra [wa [Hone _]]].
    destruct (IH wa ra) as [r1 [w1 [r2 [w2 [Hfirst [Hsecond Hboth]]]]]].
    exists r1, w1, r2, w2. simpl app.
    do 2 (erewrite forEachArticle_cons by exact Hone). now repeat split.
Qed.

End BulkMore.


Section BulkCoverage.
Context {H : ErrorHandler}.



End BulkCoverage.

(* --------------------------------------------------------------------- *)
(** ** Retrieval                                                          *)
(* --------------------------------------------------------------------- *)

Lemma hasSome_nil (column : list string) : hasSome column [] = false.
Proof. unfold hasSome. induction column; simpl; auto. Qed.

Lemma takeZ_distinct (key : RssArticle -> nat) (n : Z) (l : list RssArticle) :
  NoDup (map key l) -> NoDup (map key (takeZ n l)).
Proof.
  intros Hdistinct. unfold takeZ. destruct (0 <=? n).
  - set (k := Z.to_nat n).
    rewrite <- (firstn_skipn k l), map_app in Hdistinct.
    exact (NoDup_app_remove_r _ _ Hdistinct).
  - set (k := (List.length l - Z.to_nat (- n))%nat).
    rewrite <- (firstn_skipn k l), map_app in Hdistinct.
    exact (NoDup_app_remove_l _ _ Hdistinct).
Qed.

Lemma filter_distinct (key : RssArticle -> nat) (keep : RssArticle -> bool) :
  forall stored : list RssArticle,
  NoDup (map key stored) -> NoDup (map key (filter keep stored)).
Proof.
  intros stored. induction stored as [|a rest IH]; intros Hdistinct; [constructor|].
  simpl in Hdistinct. apply NoDup_cons_iff in Hdistinct as [Hfresh Hrest].
  simpl. destruct (keep a); [|now apply IH].
  simpl. constructor; [|now apply IH].
  intros Hin. apply Hfresh. apply in_map_iff in Hin as [b [Hkey Hb]].
  apply filter_In in Hb as [Hb _]. rewrite <- Hkey. now apply in_map.
Qed.

(** X12.  For articles that list their primary feed among their source
    feeds, the first alternative of the [where] clause adds nothing: an
    article is selected exactly when its [sourceFeedIds] meets [feedIds] and
    its [pubDate] lies in the window. *)
Theorem whereFeedsAndDateRange_sources_suffice
  (feedIds : list string) (startDate endDate : Z) (a : RssArticle) :
  articleOk a ->
  whereFeedsAndDateRange feedIds startDate endDate a
  = hasSome (sourceFeedIds a) feedIds
    && ((startDate <=? pubDate a) && (pubDate a <=? endDate)).
Proof.
  intros [_ Hprimary]. unfold whereFeedsAndDateRange. f_equal.
  destruct (includes feedIds (feedId a)) eqn:Hinc; [|reflexivity].
  simpl. symmetry. apply hasSome_exists. exists (feedId a).
  split; [assumption|now apply includes_In].
Qed.

Section RetrievalMore.
Context {H : ErrorHandler} {P : PrismaHelpers}.

(** X14.  In a database that serves its calls the result is empty when no
    feed is asked for, when the window ends before it starts, and when
    [limit] is 0. *)
Theorem getArticlesByFeedsAndDateRange_empty
  (feedIds : list string) (startDate endDate : Z) (limit : option Z) (w : World) :
  pending w = [] ->
  feedIds = [] \/ endDate < startDate \/ limit = Some 0 ->
  getArticlesByFeedsAndDateRange feedIds startDate endDate limit w = (Return [], w).
Proof.
  intros Hp Hcase.
  destruct (getArticlesByFeedsAndDateRange_served feedIds startDate endDate limit w Hp)
    as [rs [Hrun [Hfound _]]].
  rewrite Hrun. f_equal. f_equal.
  apply map_eq_nil with (f := article). rewrite Hfound.
  assert (Hnone : limit = Some 0 \/
            forall l, filter (whereFeedsAndDateRange feedIds startDate endDate) l = []).
  { destruct Hcase as [->|[Hwindow| ->]]; [right|right|now left].
    - induction l as [|a l IH]; [reflexivity|]. simpl.
      unfold whereFeedsAndDateRange at 1. simpl. rewrite hasSome_nil. simpl. exact IH.
    - induction l as [|a l IH]; [reflexivity|]. simpl.
      unfold whereFeedsAndDateRange at 1.
      destruct (startDate <=? pubDate a) eqn:Hs, (pubDate a <=? endDate) eqn:He;
        rewrite ?andb_false_r; simpl; try exact IH.
      apply Z.leb_le in Hs, He. lia. }
  destruct Hnone as [->|Hnone]; [reflexivity|]. rewrite Hnone.
  simpl. unfold takeZ. destruct (0 <=? nullish limit 100);
    [apply firstn_nil|reflexivity].
Qed.

(** X15.  In a database that serves its calls and holds each id once, no
    article is returned twice, whatever the limit. *)
Theorem getArticlesByFeedsAndDateRange_NoDup
  (feedIds : list string) (startDate endDate : Z) (limit : option Z) (w : World) :
  pending w = [] ->
  NoDup (map id (articles w)) ->
  exists rs,
    getArticlesByFeedsAndDateRange feedIds startDate endDate limit w = (Return rs, w) /\
    NoDup (map (fun r => id (article r)) rs).
Proof.
  intros Hp Hids.
  destruct (getArticlesByFeedsAndDateRange_served feedIds startDate endDate limit w Hp)
    as [rs [Hrun [Hfound _]]].
  exists rs. split; [exact Hrun|].
  rewrite <- (map_map article id), Hfound.
  set (matching := filter (whereFeedsAndDateRange feedIds startDate endDate) (articles w)).
  assert (Hsorted : NoDup (map id (sortBy ARTICLE_ORDER_BY_DATE_DESC matching))).
  { apply (Permutation_NoDup (l := map id matching)).
    - apply Permutation_map, Permutation_sym, sortBy_Permutation.
    - now apply filter_distinct. }
  now apply takeZ_distinct.
Qed.

(** X16.  In a database that serves its calls, asking for fewer articles
    gives the beginning of what asking for more gives: for
    [0 <= n <= m], the result for limit [n] is the first [n] entries of the
    result for limit [m]. *)
Theorem getArticlesByFeedsAndDateRange_limit_prefix
  (feedIds : list string) (startDate endDate : Z) (n m : Z) (w : World) :
  pending w = [] ->
  0 <= n <= m ->
  exists few many,
    getArticlesByFeedsAndDateRange feedIds startDate endDate (Some n) w
      = (Return few, w) /\
    getArticlesByFeedsAndDateRange feedIds startDate endDate (Some m) w
      = (Return many, w) /\
    few = firstn (Z.to_nat n) many.
Proof.
  intros Hp Hnm.
  unfold getArticlesByFeedsAndDateRange, wrapDatabaseOperation, tryCatch, bind,
    prisma.rssArticle.findMany, dbCall. rewrite Hp. simpl.
  eexists _, _. split; [reflexivity|]. split; [reflexivity|].
  rewrite !takeZ_nonneg by lia. rewrite firstn_map. f_equal.
  rewrite firstn_firstn. f_equal. lia.
Qed.


End RetrievalMore.

(* --------------------------------------------------------------------- *)
(** ** [getAuthorString], read backwards                                  *)
(* --------------------------------------------------------------------- *)

(** X18.  When [getAuthorString] gives a name, the input was that name as a
    non-empty string, or an object whose [name] is that non-empty string,
    or an object whose [name] is an array that joins to it.  So only an
    array of names can give the empty name. *)
Theorem getAuthorString_Some_inv (raw : JsValue) (s : string) :
  getAuthorString raw = Return (Some s) ->
  (raw = JsString s /\ s <> "") \/
  (exists props,
     raw = JsObject props /\ lookupProp "name" props = Some (JsString s) /\ s <> "") \/
  (exists props xs,
     raw = JsObject props /\ lookupProp "name" props = Some (JsArray xs) /\
     s = join ", " xs).
Proof.
  destruct raw as [ | |b|n| |t|xs|props].
  1-2,5,7: discriminate.
  - destruct b; discriminate.
  - unfold getAuthorString; simpl. destruct (n =? 0); discriminate.
  - unfold getAuthorString; simpl.
    destruct (String.eqb_spec t ""); simpl; [discriminate|].
    intros [= ->]. now left.
  - rewrite getAuthorString_object.
    destruct (lookupProp "name" props) as [[ | |b|n| |t|xs|ps]|] eqn:Hname;
      try discriminate.
    + destruct (String.eqb_spec t ""); [discriminate|].
      intros [= ->]. right. left. now exists props.
    + intros [= <-]. right. right. now exists props, xs.
Qed.

(* --------------------------------------------------------------------- *)
(** ** The two newsletter schemas                                         *)
(* --------------------------------------------------------------------- *)

Lemma parseAll_string_inv (xs ys : list JsValue) :
  z.parseAll z.string xs = Some ys ->
  ys = xs /\ exists l, xs = map JsString l.
Proof.
  revert ys. induction xs as [|x xs IH]; intros ys; simpl.
  - intros [= <-]. split; [reflexivity|now exists []].
  - destruct x; try discriminate. simpl.
    destruct (z.parseAll z.string xs) as [zs|]; [|discriminate].
    intros [= <-]. destruct (IH zs eq_refl) as [-> [l ->]].
    split; [reflexivity|]. now exists (s :: l).
Qed.

Lemma array_string_inv (v parsed : JsValue) :
  z.array z.string v = Some parsed ->
  parsed = v /\ exists l, v = JsArray (map JsString l).
Proof.
  unfold z.array. destruct v; try discriminate.
  destruct (z.parseAll z.string xs) as [ys|] eqn:Hall; [|discriminate].
  intros [= <-]. destruct (parseAll_string_inv _ Hall) as [-> [l ->]].
  split; [reflexivity|now exists l].
Qed.

Lemma fixedLength_inv (k : nat) (v parsed : JsValue) :
  z.length k (z.array z.string) v = Some parsed ->
  parsed = v /\ exists l, v = JsArray (map JsString l) /\ List.length l = k.
Proof.
  unfold z.length. destruct (z.array z.string v) as [out|] eqn:Harr; [|discriminate].
  destruct (array_string_inv _ Harr) as [-> [l ->]].
  destruct (Nat.eqb_spec (List.length (map JsString l)) k); [|discriminate].
  intros [= <-]. split; [reflexivity|]. exists l. split; [reflexivity|].
  now rewrite length_map in *.
Qed.

Lemma optional_string_inv (v parsed : JsValue) :
  z.optional z.string v = Some parsed ->
  parsed = v /\ (v = JsUndefined \/ exists s, v = JsString s).
Proof.
  destruct v; simpl; try discriminate; intros [= <-]; split; eauto.
Qed.

Lemma NewsletterSchema_inv (v parsed : JsValue) :
  NewsletterSchema v = Some parsed ->
  exists props titles subjects text announcements info,
    v = JsObject props /\
    lookupProp "suggestedTitles" props = Some (JsArray (map JsString titles)) /\
    lookupProp "suggestedSubjectLines" props = Some (JsArray (map JsString subjects)) /\
    lookupProp "body" props = Some (JsString text) /\
    lookupProp "topAnnouncements" props = Some (JsArray (map JsString announcements)) /\
    List.length titles = 5%nat /\ List.length subjects = 5%nat /\
    List.length announcements = 5%nat /\
    ((lookupProp "additionalInfo" props = None /\ info = []) \/
     (lookupProp "additionalInfo" props = Some JsUndefined /\
      info = [("additionalInfo", JsUndefined)]) \/
     (exists s, lookupProp "additionalInfo" props = Some (JsString s) /\
                info = [("additionalInfo", JsString s)])) /\
    parsed = JsObject
               ([ ("suggestedTitles", JsArray (map JsString titles));
                  ("suggestedSubjectLines", JsArray (map JsString subjects));
                  ("body", JsString text);
                  ("topAnnouncements", JsArray (map JsString announcements)) ]
                ++ info).
Proof.
  unfold NewsletterSchema, z.object. destruct v as [ | | | | | | |props]; try discriminate.
  cbn [z.parseShape].
  destruct (lookupProp "suggestedTitles" props) as [x1|] eqn:L1; [|discriminate].
  destruct (z.length 5 (z.array z.string) x1) as [p1|] eqn:H1; [|discriminate].
  destruct (lookupProp "suggestedSubjectLines" props) as [x2|] eqn:L2;
    [|discriminate].
  destruct (z.length 5 (z.array z.string) x2) as [p2|] eqn:H2; [|discriminate].
  destruct (lookupProp "body" props) as [x3|] eqn:L3; [|discriminate].
  destruct (z.string x3) as [p3|] eqn:H3; [|discriminate].
  destruct (lookupProp "topAnnouncements" props) as [x4|] eqn:L4; [|discriminate].
  destruct (z.length 5 (z.array z.string) x4) as [p4|] eqn:H4; [|discriminate].
  apply fixedLength_inv in H1 as [-> [titles [-> Hlt]]].
  apply fixedLength_inv in H2 as [-> [subjects [-> Hls]]].
  apply fixedLength_inv in H4 as [-> [announcements [-> Hla]]].
  destruct x3 as [ | | | | |text| | ]; try discriminate. injection H3 as <-.
  destruct (lookupProp "additionalInfo" props) as [x5|] eqn:L5.
  - destruct (z.optional z.string x5) as [p5|] eqn:H5; [|discriminate].
    apply optional_string_inv in H5 as [-> Hinfo]. simpl.
    destruct Hinfo as [->|[s ->]]; intros [= <-].
    + exists props, titles, subjects, text, announcements,
        [("additionalInfo", JsUndefined)].
      do 8 (split; [assumption || reflexivity|]). split; [|reflexivity].
      right. left. now split.
    + exists props, titles, subjects, text, announcements,
        [("additionalInfo", JsString s)].
      do 8 (split; [assumption || reflexivity|]). split; [|reflexivity].
      right. right. exists s. now split.
  - simpl. intros [= <-].
    exists props, titles, subjects, text, announcements, [].
    do 8 (split; [assumption || reflexivity|]). split; [|reflexivity].
    left. now split.
Qed.

(** X19.  What [NewsletterSchema] accepts: an object whose
    [suggestedTitles], [suggestedSubjectLines] and [topAnnouncements] are
    arrays of exactly five strings, whose [body] is a string and whose
    [additionalInfo] is missing, undefined or a string.  What it hands back
    is these five properties with the values they had - other properties
    are dropped, nothing is converted. *)
Theorem NewsletterSchema_accepts_inv (v parsed : JsValue) :
  NewsletterSchema v = Some parsed ->
  exists props titles subjects text announcements info,
    v = JsObject props /\
    lookupProp "suggestedTitles" props = Some (JsArray (map JsString titles)) /\
    lookupProp "suggestedSubjectLines" props = Some (JsArray (map JsString subjects)) /\
    lookupProp "body" props = Some (JsString text) /\
    lookupProp "topAnnouncements" props = Some (JsArray (map JsString announcements)) /\
    List.length titles = 5%nat /\ List.length subjects = 5%nat /\
    List.length announcements = 5%nat /\
    ((lookupProp "additionalInfo" props = None /\ info = []) \/
     (lookupProp "additionalInfo" props = Some JsUndefined /\
      info = [("additionalInfo", JsUndefined)]) \/
     (exists s, lookupProp "additionalInfo" props = Some (JsString s) /\
                info = [("additionalInfo", JsString s)])) /\
    parsed = JsObject
               ([ ("suggestedTitles", JsArray (map JsString titles));
                  ("suggestedSubjectLines", JsArray (map JsString subjects));
                  ("body", JsString text);
                  ("topAnnouncements", JsArray (map JsString announcements)) ]
                ++ info).
Proof. apply NewsletterSchema_inv. Qed.

Lemma parseShape_accepts_more (props : list (string * JsValue))
  (shape shape' : list (string * z.Schema)) :
  Forall2 (fun field field' =>
             fst field = fst field' /\ accepts_more (snd field) (snd field'))
          shape shape' ->
  forall out, z.parseShape shape props = Some out -> z.parseShape shape' props = Some out.
Proof.
  induction 1 as [|[k s] [k' s'] shape shape' [Hk Hs] Hrest IH]; intros out; [trivial|].
  simpl in Hk, Hs. subst k'. simpl.
  destruct (s match lookupProp k props with Some x => x | None => JsUndefined end)
    as [parsed|] eqn:Hfield; [|discriminate].
  rewrite (Hs _ _ Hfield).
  destruct (z.parseShape shape props) as [others|]; [|discriminate].
  now rewrite (IH others eq_refl).
Qed.

Lemma length_accepts_more (k : nat) (schema : z.Schema) :
  accepts_more (z.length k schema) schema.
Proof.
  intros v parsed. unfold z.length.
  destruct (schema v) as [[ | | | | | |xs| ]|]; try discriminate.
  destruct (Nat.eqb (List.length xs) k); [trivial|discriminate].
Qed.

(** X20.  The schema the page reads the stream with accepts everything
    [NewsletterSchema] accepts, with the same parsed data, and it accepts a
    newsletter whatever the lengths of its arrays. *)
Theorem newsletterSchema_relaxes_NewsletterSchema :
  accepts_more NewsletterSchema newsletterSchema /\
  forall n, newsletterSchema (newsletterObject n) = Some (newsletterObject n).
Proof.
  split.
  - intros v parsed. unfold NewsletterSchema, newsletterSchema, z.object.
    destruct v; try discriminate.
    destruct (z.parseShape _ props) as [out|] eqn:Hstrict; [|discriminate].
    intros [= <-].
    erewrite parseShape_accepts_more; [reflexivity| |exact Hstrict].
    repeat constructor; simpl; try apply length_accepts_more; intros ? ?; trivial.
  - intros n. unfold newsletterSchema, newsletterObject, z.object.
    remember (z.array z.string) as strings eqn:Hstrings.
    destruct n as [titles subjects text announcements info]; simpl.
    subst strings. unfold z.array. rewrite !parseAll_strings. simpl.
    destruct info; reflexivity.
Qed.

(** X21.  What [NewsletterSchema] hands back it accepts again, unchanged:
    validating twice is validating once. *)
Theorem NewsletterSchema_idempotent (v parsed : JsValue) :
  NewsletterSchema v = Some parsed -> NewsletterSchema parsed = Some parsed.
Proof.
  intros Hparse.
  destruct (@NewsletterSchema_inv v parsed Hparse)
    as (props & titles & subjects & text & announcements & info
        & _ & _ & _ & _ & _ & Ht & Hs & Ha & Hinfo & ->).
  unfold NewsletterSchema, z.object.
  remember (z.length 5 (z.array z.string)) as five eqn:Hfive.
  destruct Hinfo as [[_ ->]|[[_ ->]|[s [_ ->]]]]; simpl; subst five;
    rewrite !fixedLength_strings, Ht, Hs, Ha; reflexivity.
Qed.

(* --------------------------------------------------------------------- *)
(** ** Racing calls and the unique index                                  *)
(* --------------------------------------------------------------------- *)

Section RaceMore.
Context {H : ErrorHandler}.


(** X25.  Two calls for the same stored guid and the same feed, not listed
    yet, in a database that serves its calls: when both have looked before
    either writes, both push, and the feed is listed twice.  The check
    [includes] and the [push] do not make up an add-to-set. *)
Theorem createRssArticle_same_feed_race_duplicates
  (w : World) (stored : RssArticle) (data : ArticleCreateData.t) :
  pending w = [] ->
  byGuid (ArticleCreateData.guid data) (articles w) = Some stored ->
  ~ In (ArticleCreateData.feedId data) (sourceFeedIds stored) ->
  exists a,
    byGuid (ArticleCreateData.guid data)
      (articles (snd (interleave [true; false; true; false]
                        (Started data) (Started data) w))) = Some a /\
    sourceFeedIds a
      = sourceFeedIds stored
        ++ [ArticleCreateData.feedId data; ArticleCreateData.feedId data] /\
    ~ NoDup (sourceFeedIds a).
Proof.
  intros Hp Hfind Hfresh.
  assert (Hinc : includes (sourceFeedIds stored) (ArticleCreateData.feedId data) = false).
  { destruct (includes _ _) eqn:Hinc; [|reflexivity].
    apply includes_In in Hinc. contradiction. }
  destruct w as [arts next pend cons]. simpl in *. subst pend.
  unfold prisma.rssArticle.findUnique, dbCall. simpl. rewrite Hfind. simpl.
  unfold createOrMerge. rewrite Hinc. simpl.
  unfold bind, prisma.rssArticle.update, dbCall. simpl. rewrite Hfind. simpl.
  rewrite (@byGuid_push _ (ArticleCreateData.feedId data) _ _ Hfind). simpl.
  eexists. split.
  - apply byGuid_push. apply byGuid_push. exact Hfind.
  - simpl. rewrite <- app_assoc. split; [reflexivity|].
    intros Hnd. apply NoDup_app_remove_l in Hnd.
    apply NoDup_cons_iff in Hnd as [Hnew _]. apply Hnew. now left.
Qed.

End RaceMore.

(* --------------------------------------------------------------------- *)
(** ** The generation page                                                *)
(* --------------------------------------------------------------------- *)

Lemma submitted_app (xs ys : list GenerationPage.UiEvent) :
  GenerationPage.submitted (xs ++ ys)
  = GenerationPage.submitted xs ++ GenerationPage.submitted ys.
Proof. apply flat_map_app. Qed.

Lemma submitted_startGeneration
  (params : GenerationPage.Params) (outcome : GenerationPage.PrepareOutcome) :
  GenerationPage.submitted (GenerationPage.startGeneration params outcome) = [params].
Proof.
  destruct outcome as [|feeds found|error|ok]; try reflexivity.
  unfold GenerationPage.startGeneration. rewrite !submitted_app.
  destruct (0 <? feeds), (0 <? found); reflexivity.
Qed.

Lemma renders_started (rs : list (option GenerationPage.Params * GenerationPage.PrepareOutcome)) :
  GenerationPage.submitted (snd (GenerationPage.renders rs true)) = [].
Proof.
  induction rs as [|[[p|] outcome] rest IH]; simpl; [reflexivity| |];
    destruct (GenerationPage.renders rest true) as [final later]; exact IH.
Qed.

(** X24.  Over the renders of one page, however many there are and whatever
    becomes of the request to prepare, the generation is submitted once,
    with the parameters of the first render that has parameters - and not
    at all when no render has. *)
Theorem renders_submit_once
  (rs : list (option GenerationPage.Params * GenerationPage.PrepareOutcome)) :
  GenerationPage.submitted (snd (GenerationPage.renders rs false))
  = match GenerationPage.firstParams rs with
    | Some p => [p]
    | None => []
    end.
Proof.
  induction rs as [|[[p|] outcome] rest IH]; simpl; [reflexivity| |].
  - pose proof (renders_started rest) as Hlater.
    destruct (GenerationPage.renders rest true) as [final later]. simpl in *.
    now rewrite submitted_app, submitted_startGeneration, Hlater.
  - destruct (GenerationPage.renders rest false) as [final later]. exact IH.
Qed.

(* --------------------------------------------------------------------- *)
(** ** The further properties on the sample data                          *)
(* --------------------------------------------------------------------- *)

Lemma createRssArticle_keeps_storeOk_witness :
  storeOk (snd (createRssArticle (H := rethrowingHandler) seenAgain storedOnce)).
Proof.
  apply (createRssArticle_keeps_storeOk (H := rethrowingHandler) seenAgain).
  unfold storeOk, articleOk. simpl.
  repeat split; repeat constructor; simpl; auto; intros [].
Defined.

Lemma createRssArticle_other_guids_witness :
  byGuid "abc"
    (articles (snd (createRssArticle (H := rethrowingHandler)
                      (observation "xyz" "f2" "Other" 5) storedOnce)))
  = Some (newArticle firstSeen None 0).
Proof.
  rewrite (createRssArticle_other_guids (H := rethrowingHandler)
             (observation "xyz" "f2" "Other" 5) storedOnce (g := "abc")).
  - reflexivity.
  - discriminate.
Defined.




Lemma bulkCreateRssArticles_keeps_storeOk_witness :
  storeOk (snd (bulkCreateRssArticles (H := rethrowingHandler)
                  [firstSeen; seenAgain; firstSeen] emptyWorld)).
Proof.
  apply (bulkCreateRssArticles_keeps_storeOk (H := rethrowingHandler)).
  unfold storeOk. simpl. repeat split; constructor.
Defined.


Lemma whereFeedsAndDateRange_sources_suffice_witness :
  whereFeedsAndDateRange ["f1"] 0 2000 (newArticle firstSeen None 0)
  = hasSome ["f1"] ["f1"] && ((0 <=? 1000) && (1000 <=? 2000)).
Proof.
  apply (whereFeedsAndDateRange_sources_suffice ["f1"] 0 2000
           (a := newArticle firstSeen None 0)).
  unfold articleOk. simpl. split; [repeat constructor; intros []|now left].
Defined.

Lemma getArticlesByFeedsAndDateRange_empty_witness :
  getArticlesByFeedsAndDateRange (H := rethrowingHandler) (P := feedIdHelpers)
    [] 0 2000 None storedTwice = (Return [], storedTwice).
Proof.
  apply (@getArticlesByFeedsAndDateRange_empty rethrowingHandler feedIdHelpers
           [] 0 2000 None storedTwice).
  - reflexivity.
  - now left.
Defined.

Lemma getArticlesByFeedsAndDateRange_NoDup_witness :
  exists rs,
    getArticlesByFeedsAndDateRange (H := rethrowingHandler) (P := feedIdHelpers)
      ["f1"] 0 100 None crowdedWorld = (Return rs, crowdedWorld) /\
    NoDup (map (fun r => id (article r)) rs).
Proof.
  apply (getArticlesByFeedsAndDateRange_NoDup (H := rethrowingHandler)
           (P := feedIdHelpers) ["f1"] 0 100 None crowdedWorld).
  - reflexivity.
  - unfold crowdedWorld. cbn [articles]. rewrite map_map. simpl id.
    rewrite map_id. apply seq_NoDup.
Defined.

Lemma getArticlesByFeedsAndDateRange_limit_prefix_witness :
  exists few many,
    getArticlesByFeedsAndDateRange (H := rethrowingHandler) (P := feedIdHelpers)
      ["f1"] 0 100 (Some 2) crowdedWorld = (Return few, crowdedWorld) /\
    getArticlesByFeedsAndDateRange (H := rethrowingHandler) (P := feedIdHelpers)
      ["f1"] 0 100 (Some 10) crowdedWorld = (Return many, crowdedWorld) /\
    few = firstn 2 many.
Proof.
  apply (getArticlesByFeedsAndDateRange_limit_prefix (H := rethrowingHandler)
           (P := feedIdHelpers) ["f1"] 0 100 (n := 2) (m := 10) crowdedWorld).
  - reflexivity.
  - lia.
Defined.


Lemma getAuthorString_Some_inv_witness :
  JsString "Ada" = JsString "Ada" /\ "Ada" <> "" \/
  (exists props,
     JsString "Ada" = JsObject props /\
     lookupProp "name" props = Some (JsString "Ada") /\ "Ada" <> "") \/
  (exists props xs,
     JsString "Ada" = JsObject props /\
     lookupProp "name" props = Some (JsArray xs) /\ "Ada" = join ", " xs).
Proof.
  apply (getAuthorString_Some_inv (JsString "Ada") (s := "Ada")). reflexivity.
Defined.

Lemma NewsletterSchema_accepts_inv_witness :
  exists props titles,
    newsletterObject (draft 5) = JsObject props /\
    lookupProp "suggestedTitles" props = Some (JsArray (map JsString titles)) /\
    List.length titles = 5%nat.
Proof.
  destruct (@NewsletterSchema_accepts_inv (newsletterObject (draft 5))
              (newsletterObject (draft 5)) eq_refl)
    as (props & titles & subjects & text & announcements & info
        & Hv & Htitles & _ & _ & _ & Hlen & _).
  exists props, titles. repeat split; assumption.
Defined.

Lemma NewsletterSchema_idempotent_witness :
  NewsletterSchema (newsletterObject (draft 5)) = Some (newsletterObject (draft 5)).
Proof.
  apply (@NewsletterSchema_idempotent (newsletterObject (draft 5))). reflexivity.
Defined.


Lemma createRssArticle_same_feed_race_duplicates_witness :
  exists a,
    byGuid "abc"
      (articles (snd (interleave (H := rethrowingHandler) [true; false; true; false]
                        (Started seenAgain) (Started seenAgain) storedOnce))) = Some a /\
    sourceFeedIds a = ["f1"; "f2"; "f2"].
Proof.
  destruct (createRssArticle_same_feed_race_duplicates (H := rethrowingHandler)
              storedOnce (stored := newArticle firstSeen None 0) seenAgain)
    as [a [Hfound [Hfeeds _]]].
  - reflexivity.
  - reflexivity.
  - simpl. intros [Heq|[]]. discriminate.
  - exists a. split; [exact Hfound|exact Hfeeds].
Defined.
